(** * scope.server.app: the HTTP boundary of the Scope server

    A shallow embedding of [src/scope/server/app.py]: the log filter, the
    module-level logging set-up, the lifespan (startup and shutdown) and the
    request handlers, over a small model of Python exceptions and of the
    asyncio event loop.  The collaborators that live in other modules
    (PipelineManager, WebRTCManager, logs_config, torch, the file system,
    the clock) are an explicit [World] the handlers are run in. *)

From stdpp Require Import base strings list gmap pretty sorting.
From Stdlib Require Import ZArith Ascii.
From Stdlib Require OrderedTypeEx.

Local Open Scope Z_scope.

(** ** Python values and exceptions *)

Module Py.

(** The exception classes the module distinguishes.  [HTTPException] is
    FastAPI's; it derives from [Exception], as does [TimeoutError].
    [BaseException] stands for the classes outside [Exception]
    (CancelledError, KeyboardInterrupt), which [except Exception] lets
    through. *)
Inductive exn : Type :=
| HTTPException (status_code : Z) (detail : string)
| TimeoutError
| Exception (cls : string) (msg : string)
| BaseException (cls : string) (msg : string).

(** [isinstance(e, Exception)] *)
Definition is_Exception (e : exn) : bool :=
  match e with
  | BaseException _ _ => false
  | _ => true
  end.

(** [isinstance(e, HTTPException)] *)
Definition is_HTTPException (e : exn) : bool :=
  match e with
  | HTTPException _ _ => true
  | _ => false
  end.

(** [str(e)].  Starlette's HTTPException prints as "<status>: <detail>";
    the others print their message, and a TimeoutError raised by
    [asyncio.wait_for] carries none. *)
Definition str (e : exn) : string :=
  match e with
  | HTTPException c d => pretty c +:+ ": " +:+ d
  | TimeoutError => ""
  | Exception _ m => m
  | BaseException _ m => m
  end.

(** The outcome of a call: a value or a raised exception. *)
Inductive result (A : Type) : Type :=
| Ok (a : A)
| Raise (e : exn).
Global Arguments Ok {A} a.
Global Arguments Raise {A} e.

(** A dict with string keys, as passed to the pipeline manager and as
    returned by its status query (values kept in their printed form). *)
Abbreviation dict := (gmap string string).

(** [d[k]]: a missing key raises KeyError. *)
Definition subscript (d : dict) (k : string) : result string :=
  match d !! k with
  | Some v => Ok v
  | None => Raise (Exception "KeyError" k)
  end.

(** [s.replace(old, new)] for a non-empty [old]: the occurrences are
    replaced from left to right, without overlap.  [skip] counts the
    characters of a matched occurrence still to be dropped. *)
Fixpoint replace_from (skip : nat) (old new s : string) : string :=
  match s with
  | EmptyString => EmptyString
  | String c s' =>
      match skip with
      | S k => replace_from k old new s'
      | O =>
          if String.prefix old s
          then new +:+ replace_from (Nat.pred (String.length old)) old new s'
          else String c (replace_from O old new s')
      end
  end.

Definition replace (s old new : string) : string := replace_from O old new s.

(** [needle in s] on strings. *)
Fixpoint contains (needle s : string) : bool :=
  if String.prefix needle s then true
  else match s with
       | EmptyString => false
       | String _ s' => contains needle s'
       end.

End Py.
Import Py.

(** ** Paths and the file system *)

(** A [pathlib.Path], as the list of its components. *)
Abbreviation Path := (list string).

(** [p.name]: the final component. *)
Definition path_name (p : Path) : string := default "" (last p).

(** [str(p)] *)
Fixpoint path_str (p : Path) : string :=
  match p with
  | [] => "."
  | [x] => x
  | x :: p' => x +:+ "/" +:+ path_str p'
  end.

(** What a path names on disk: a regular file holding UTF-8 text, or
    something [read_text] fails on with [e] (a directory, a file that
    cannot be decoded or opened). *)
Inductive fs_entry : Type :=
| RegularFile (text : string)
| Unreadable (e : exn).

(** ** Logging *)

Definition NOTSET : Z := 0.
Definition INFO : Z := 20.
Definition WARNING : Z := 30.
Definition ERROR : Z := 40.

Record LogRecord : Type := {
  name : string;
  levelno : Z;
  message : string  (* msg % args, already merged *)
}.

(** [record.getMessage()] *)
Definition getMessage (record : LogRecord) : string := message record.

(** ** The event loop *)

(** Coroutine objects the module hands to [asyncio.create_task]: a call of
    [pipeline_manager.load_pipeline] and a call of [prewarm_pipeline].
    Calling a coroutine function only builds the object; its body runs
    when the loop gives the task a turn. *)
Inductive coro : Type :=
| load_pipeline_coro (pipeline_id : string) (load_params : option dict)
| prewarm_pipeline_coro (pipeline_id : string).

(** How an awaited operation behaves in time: it completes [elapsed]
    seconds after it was started, with a value or an exception, or it
    never completes. *)
Inductive Behaviour (A : Type) : Type :=
| Completes (elapsed : Z) (r : result A)
| Hangs.
Arguments Completes {A} elapsed r.
Arguments Hangs {A}.

(** What an observer of the process sees, in order. *)
Inductive event : Type :=
| Log (lvl : Z) (msg : string)               (* logger.<lvl>(msg) on the module logger *)
| Called (f : string)                        (* a collaborator was called *)
| Returned (f : string)                      (* ... and returned *)
| Raised (f : string) (e : exn)              (* ... or raised *)
| TaskCreated (c : coro)                     (* asyncio.create_task(c) *)
| TaskStarted (c : coro)                     (* the loop gave the task its first turn *)
| TaskSettled (c : coro) (b : Behaviour unit) (* how the task ended, if it did *)
| Responded (status_code : Z).               (* the HTTP response left the handler *)

(** Opaque handles on the two manager objects. *)
Inductive PipelineManager : Type := PipelineManager_instance.
Inductive WebRTCManager : Type := WebRTCManager_instance.

(** The module globals and the loop's task queues.  [ready] holds the tasks
    created and not yet run; [running] those that had a first turn. *)
Record State : Type := {
  webrtc_manager : option WebRTCManager;
  pipeline_manager : option PipelineManager;
  ready : list coro;
  running : list coro
}.

(** The state at import time: both globals are [None], no task exists. *)
Definition init : State :=
  {| webrtc_manager := None; pipeline_manager := None; ready := []; running := [] |}.

(** A computation of the module: it reads and updates the state, emits
    events, and returns or raises. *)
Definition M (A : Type) : Type := State -> result A * State * list event.

Definition ret {A} (a : A) : M A := fun s => (Ok a, s, []).

Definition bind {A B} (m : M A) (k : A -> M B) : M B :=
  fun s =>
    match m s with
    | (Ok a, s1, l1) => let '(r, s2, l2) := k a s1 in (r, s2, l1 ++ l2)
    | (Raise e, s1, l1) => (Raise e, s1, l1)
    end.

Declare Scope py_scope.
Delimit Scope py_scope with py.
Notation "x <~ m ;; k" := (bind m (fun x => k))
  (at level 100, m at next level, right associativity) : py_scope.
Notation "m ;;; k" := (bind m (fun _ => k))
  (at level 100, right associativity) : py_scope.
Local Open Scope py_scope.

Definition raise {A} (e : exn) : M A := fun s => (Raise e, s, []).

Definition lift {A} (r : result A) : M A := fun s => (r, s, []).

Definition emit (ev : event) : M unit := fun s => (Ok tt, s, [ev]).

Definition get : M State := fun s => (Ok s, s, []).

Definition put (s : State) : M unit := fun _ => (Ok tt, s, []).

(** [try: body except C1 as e: h1 except C2 as e: h2]: the first clause
    whose class test accepts the exception handles it; with none, the
    exception propagates. *)
Definition clause (A : Type) : Type := (exn -> bool) * (exn -> M A).

Fixpoint handle {A} (clauses : list (clause A)) (e : exn) : M A :=
  match clauses with
  | [] => raise e
  | (accepts, handler) :: rest =>
      if accepts e then handler e else handle rest e
  end.

Definition try_except {A} (body : M A) (clauses : list (clause A)) : M A :=
  fun s =>
    match body s with
    | (Ok a, s1, l1) => (Ok a, s1, l1)
    | (Raise e, s1, l1) =>
        let '(r, s2, l2) := handle clauses e s1 in (r, s2, l1 ++ l2)
    end.

(** [asyncio.create_task(c)]: the task is queued; nothing of it runs. *)
Definition create_task (c : coro) : M unit :=
  fun s =>
    (Ok tt,
     {| webrtc_manager := webrtc_manager s; pipeline_manager := pipeline_manager s;
        ready := ready s ++ [c]; running := running s |},
     [TaskCreated c]).

(** A suspension point: control goes back to the loop, which gives every
    queued task its first turn before the suspended coroutine resumes. *)
Definition suspend : M unit :=
  fun s =>
    (Ok tt,
     {| webrtc_manager := webrtc_manager s; pipeline_manager := pipeline_manager s;
        ready := []; running := running s ++ ready s |},
     TaskStarted <$> ready s).

(** A plain call of a collaborator [f] whose outcome is [r]. *)
Definition call {A} (f : string) (r : result A) : M A :=
  emit (Called f);;;
  match r with
  | Ok a => emit (Returned f);;; ret a
  | Raise e => emit (Raised f e);;; raise e
  end.

(** [await f(...)]: the call suspends the caller until its outcome [r]. *)
Definition await {A} (f : string) (r : result A) : M A :=
  emit (Called f);;;
  suspend;;;
  match r with
  | Ok a => emit (Returned f);;; ret a
  | Raise e => emit (Raised f e);;; raise e
  end.

(** [obj.name] on a global that may still be [None]. *)
Definition getattr {T} (obj : option T) (attr : string) : M T :=
  match obj with
  | Some o => ret o
  | None =>
      raise (Exception "AttributeError"
               ("'NoneType' object has no attribute '" +:+ attr +:+ "'"))
  end.

Definition logger_info (msg : string) : M unit := emit (Log INFO msg).
Definition logger_warning (msg : string) : M unit := emit (Log WARNING msg).
Definition logger_error (msg : string) : M unit := emit (Log ERROR msg).

(** A coroutine run as a task, seen from outside: the log lines it writes
    and its behaviour in time. *)
Definition Co (A : Type) : Type := list event * Behaviour A.

Definition co_ret {A} (a : A) : Co A := ([], Completes 0 (Ok a)).

Definition co_bind {A B} (m : Co A) (k : A -> Co B) : Co B :=
  match m with
  | (l1, Completes t1 (Ok a)) =>
      match k a with
      | (l2, Completes t2 r) => (l1 ++ l2, Completes (t1 + t2) r)
      | (l2, Hangs) => (l1 ++ l2, Hangs)
      end
  | (l1, Completes t1 (Raise e)) => (l1, Completes t1 (Raise e))
  | (l1, Hangs) => (l1, Hangs)
  end.

(** [try: body except C as e: handler] inside a task. *)
Definition co_try_except {A} (body : Co A) (accepts : exn -> bool)
    (handler : exn -> Co A) : Co A :=
  match body with
  | (l1, Completes t1 (Raise e)) =>
      if accepts e then
        match handler e with
        | (l2, Completes t2 r) => (l1 ++ l2, Completes (t1 + t2) r)
        | (l2, Hangs) => (l1 ++ l2, Hangs)
        end
      else body
  | _ => body
  end.

Definition co_await {A} (b : Behaviour A) : Co A := ([], b).

Definition co_log (lvl : Z) (msg : string) : Co unit :=
  ([Log lvl msg], Completes 0 (Ok tt)).

(** [isinstance(e, asyncio.CancelledError)] *)
Definition is_CancelledError (e : exn) : bool :=
  match e with
  | BaseException cls _ => bool_decide (cls = "CancelledError")
  | _ => false
  end.

(** What [asyncio.wait_for] does once its timeout has fired: it cancels the
    awaitable and waits until the awaitable is done.  [cancelled] is how
    the awaitable ends once it is cancelled, the time counted from the
    cancellation: when it gives way (CancelledError) TimeoutError is
    raised, a result it still returns is returned, another exception it
    raises is raised, and while it does not end [wait_for] does not
    either. *)
Definition timed_out {A} (cancelled : Behaviour A) (timeout : Z) : Behaviour A :=
  match cancelled with
  | Completes dt (Ok a) => Completes (timeout + dt) (Ok a)
  | Completes dt (Raise e) =>
      Completes (timeout + dt) (Raise (if is_CancelledError e then TimeoutError else e))
  | Hangs => Hangs
  end.

(** [asyncio.wait_for(aw, timeout)]: the awaitable's own outcome when it is
    done by the time the timeout fires; otherwise the awaitable is
    cancelled and awaited, see [timed_out]. *)
Definition wait_for {A} (aw cancelled : Behaviour A) (timeout : Z) : Behaviour A :=
  match aw with
  | Completes t r =>
      if bool_decide (t <= timeout) then Completes t r
      else timed_out cancelled timeout
  | Hangs => timed_out cancelled timeout
  end.

(** The status code the framework answers with: 200 for a returned value,
    the code of a raised HTTPException, 500 for any other exception. *)
Definition http_status {A} (r : result A) : Z :=
  match r with
  | Ok _ => 200
  | Raise (HTTPException c _) => c
  | Raise _ => 500
  end.

(** ** The world the module runs in *)

Record PipelineLoadRequest : Type := {
  pipeline_id : string;
  load_params : option dict  (* the optional pydantic model, by its fields *)
}.

(** [load_params.model_dump()] *)
Definition model_dump (p : dict) : dict := p.

Record WebRTCOfferRequest : Type := { offer_sdp : string; offer_type : string }.
Record WebRTCOfferResponse : Type := { answer_sdp : string; answer_type : string }.
Record HealthResponse : Type := { status : string; timestamp : string }.

Record Response : Type := {
  content : string;
  media_type : string;
  headers : list (string * string)
}.

(** The behaviour of everything [app.py] imports and calls. *)
Record World : Type := {
  environ : gmap string string;                (* os.environ *)
  cuda_is_available : bool;                    (* torch.cuda.is_available() *)
  get_logs_dir : result Path;
  ensure_models_dir : result Path;
  new_PipelineManager : result PipelineManager;  (* PipelineManager() *)
  new_WebRTCManager : result WebRTCManager;      (* WebRTCManager() *)
  pm_load_pipeline : string -> option dict -> Behaviour bool;
  pm_load_cancelled : string -> option dict -> Behaviour bool;
                                   (* the same call from its cancellation on *)
  pm_get_status_info_async : result dict;
  pm_unload_pipeline : result unit;
  wm_stop : result unit;
  wm_handle_offer : WebRTCOfferRequest -> result WebRTCOfferResponse;
  get_most_recent_log_file : result (option Path);
  fs : gmap Path fs_entry;
  now_isoformat : string                       (* datetime.now().isoformat() *)
}.

(** [os.getenv(key, None)] *)
Definition getenv (w : World) (key : string) : option string := environ w !! key.

(** [p.exists()] *)
Definition path_exists (w : World) (p : Path) : bool :=
  match fs w !! p with
  | Some _ => true
  | None => false
  end.

(** [p.read_text(encoding="utf-8")] *)
Definition read_text (w : World) (p : Path) : result string :=
  match fs w !! p with
  | Some (RegularFile text) => Ok text
  | Some (Unreadable e) => Raise e
  | None => Raise (Exception "FileNotFoundError" (path_str p))
  end.

(** ** Module-level logging set-up (lines 45-100) *)

Inductive Filter : Type := STUNErrorFilter.

(** [STUNErrorFilter.filter] *)
Definition STUNErrorFilter_filter (record : LogRecord) : bool :=
  if contains "Task exception was never retrieved" (getMessage record)
  then false
  else true.

Definition Filter_filter (f : Filter) (record : LogRecord) : bool :=
  match f with
  | STUNErrorFilter => STUNErrorFilter_filter record
  end.

Inductive HandlerClass : Type :=
| StreamHandler
| RotatingFileHandler (filename : Path) (maxBytes backupCount : Z).

Record Handler : Type := {
  handler_class : HandlerClass;
  handler_level : Z;
  formatter : option string
}.

Record Logger : Type := {
  level : Z;
  filters : list Filter;
  handlers : list Handler
}.

(** The logger registry; the root logger is registered under "root". *)
Abbreviation Loggers := (gmap string Logger).

(** [logging.getLogger(name)]: an unknown name denotes a fresh logger. *)
Definition getLogger (name : string) (m : Loggers) : Logger :=
  default {| level := NOTSET; filters := []; handlers := [] |} (m !! name).

Definition setLevel (name : string) (lvl : Z) (m : Loggers) : Loggers :=
  let lg := getLogger name m in
  <[name := {| level := lvl; filters := filters lg; handlers := handlers lg |}]> m.

Definition addFilter (name : string) (f : Filter) (m : Loggers) : Loggers :=
  let lg := getLogger name m in
  <[name := {| level := level lg; filters := filters lg ++ [f]; handlers := handlers lg |}]> m.

Definition addHandler (name : string) (h : Handler) (m : Loggers) : Loggers :=
  let lg := getLogger name m in
  <[name := {| level := level lg; filters := filters lg; handlers := handlers lg ++ [h] |}]> m.

Definition log_format : string :=
  "%(asctime)s - %(name)s - %(levelname)s - %(message)s".

(** [logging.basicConfig(level=..., format=...)] on a fresh registry. *)
Definition basicConfig (lvl : Z) (fmt : string) : Loggers :=
  {[ "root" := {| level := lvl; filters := [];
                  handlers := [ {| handler_class := StreamHandler;
                                   handler_level := NOTSET;
                                   formatter := Some fmt |} ] |} ]}.

(** [isinstance(h, StreamHandler) and not isinstance(h, RotatingFileHandler)];
    a RotatingFileHandler is a StreamHandler too. *)
Definition is_console (h : Handler) : bool :=
  match handler_class h with
  | StreamHandler => true
  | RotatingFileHandler _ _ _ => false
  end.

Definition console_to_INFO (m : Loggers) : Loggers :=
  let root := getLogger "root" m in
  <["root" := {| level := level root; filters := filters root;
                 handlers :=
                   (fun h => if is_console h
                             then {| handler_class := handler_class h;
                                     handler_level := INFO;
                                     formatter := formatter h |}
                             else h) <$> handlers root |}]> m.

(** A set environment variable is truthy when it is not empty. *)
Definition truthy (v : option string) : bool :=
  match v with
  | Some EmptyString => false
  | Some _ => true
  | None => false
  end.

(** The statements of lines 60-100, in order, writing to [log_file]. *)
Definition configure_logging (w : World) (log_file : Path) : Loggers :=
  let m := basicConfig WARNING log_format in
  let m := console_to_INFO m in
  let file_handler :=
    {| handler_class := RotatingFileHandler log_file (5 * 1024 * 1024) 5;
       handler_level := INFO;
       formatter := Some log_format |} in
  let m := addHandler "root" file_handler m in
  let stun_filter := STUNErrorFilter in
  let m := addFilter "asyncio" stun_filter m in
  let m := setLevel "scope.server" INFO m in
  let m := setLevel "scope.core" INFO m in
  let m := setLevel "uvicorn.error" INFO m in
  if truthy (getenv w "VERBOSE_LOGGING") then
    let m := setLevel "uvicorn.access" INFO m in
    let m := setLevel "fastapi" INFO m in
    setLevel "aiortc" INFO m
  else m.

(** [Filterer.filter]: a record passes when every attached filter accepts it. *)
Definition Logger_filter (lg : Logger) (record : LogRecord) : bool :=
  forallb (fun f => Filter_filter f record) (filters lg).

(** [PIPELINE = os.getenv("PIPELINE", None)] *)
Definition PIPELINE (w : World) : option string := getenv w "PIPELINE".

(** ** Tasks *)

(** [prewarm_pipeline] (lines 166-174) *)
Definition prewarm_pipeline (w : World) (pipeline_id : string) : Co unit :=
  co_try_except
    (co_bind (co_await (wait_for (pm_load_pipeline w pipeline_id None)
                          (pm_load_cancelled w pipeline_id None) 300))
       (fun _ => co_ret tt))
    is_Exception
    (fun e =>
       co_log ERROR ("Error pre-warming pipeline " +:+ pipeline_id
                     +:+ " in background: " +:+ str e)).

(** What a queued coroutine does once the loop runs it. *)
Definition run_coro (w : World) (c : coro) : Co unit :=
  match c with
  | load_pipeline_coro pipeline_id load_params =>
      co_bind (co_await (pm_load_pipeline w pipeline_id load_params))
        (fun _ => co_ret tt)
  | prewarm_pipeline_coro pipeline_id => prewarm_pipeline w pipeline_id
  end.

(** The loop runs the started tasks to their end; an exception a task ends
    with stays in the task object, nobody awaits it. *)
Definition settle_events (w : World) (tasks : list coro) : list event :=
  mjoin ((fun c => let '(l, b) := run_coro w c in l ++ [TaskSettled c b]) <$> tasks).

Definition settle (w : World) : M unit :=
  fun s =>
    (Ok tt,
     {| webrtc_manager := webrtc_manager s; pipeline_manager := pipeline_manager s;
        ready := ready s; running := [] |},
     settle_events w (running s)).

(** One request, seen from the framework: the handler runs to its return
    value or exception, which fixes the response; only then does the loop
    get control back and run what the handler queued. *)
Definition serve {A} (w : World) (handler : M A) : M A :=
  fun s =>
    let '(r, s1, l1) := handler s in
    let '(_, s2, l2) := (suspend;;; settle w) s1 in
    (r, s2, l1 ++ [Responded (http_status r)] ++ l2).

(** ** Lifespan (lines 177-222) *)

Definition set_pipeline_manager (pm : option PipelineManager) : M unit :=
  s <~ get;;
  put {| webrtc_manager := webrtc_manager s; pipeline_manager := pm;
         ready := ready s; running := running s |}.

Definition set_webrtc_manager (wm : option WebRTCManager) : M unit :=
  s <~ get;;
  put {| webrtc_manager := wm; pipeline_manager := pipeline_manager s;
         ready := ready s; running := running s |}.

Definition cuda_warning : string :=
  "CUDA is not available on this system. "
  +:+ "Some pipelines may not work without a CUDA-compatible GPU. "
  +:+ "The application will start, but pipeline functionality may be limited.".

(** The part of [lifespan] before [yield]. *)
Definition lifespan_startup (w : World) : M unit :=
  (if negb (cuda_is_available w) then logger_warning cuda_warning else ret tt);;;
  logs_dir <~ call "get_logs_dir" (get_logs_dir w);;
  logger_info ("Logs directory: " +:+ path_str logs_dir);;;
  models_dir <~ call "ensure_models_dir" (ensure_models_dir w);;
  logger_info ("Models directory: " +:+ path_str models_dir);;;
  pm <~ call "PipelineManager" (new_PipelineManager w);;
  set_pipeline_manager (Some pm);;;
  logger_info "Pipeline manager initialized";;;
  match PIPELINE w with
  | Some p => create_task (prewarm_pipeline_coro p)
  | None => ret tt
  end;;;
  wm <~ call "WebRTCManager" (new_WebRTCManager w);;
  set_webrtc_manager (Some wm);;;
  logger_info "WebRTC manager initialized".

(** The part of [lifespan] after [yield]. *)
Definition lifespan_shutdown (w : World) : M unit :=
  s <~ get;;
  match webrtc_manager s with
  | Some _ =>
      logger_info "Shutting down WebRTC manager...";;;
      await "webrtc_manager.stop" (wm_stop w);;;
      logger_info "WebRTC manager shutdown complete"
  | None => ret tt
  end;;;
  s <~ get;;
  match pipeline_manager s with
  | Some _ =>
      logger_info "Shutting down pipeline manager...";;;
      call "pipeline_manager.unload_pipeline" (pm_unload_pipeline w);;;
      logger_info "Pipeline manager shutdown complete"
  | None => ret tt
  end.

(** What the pipeline-manager half of shutdown emits. *)
Definition unload_events (w : World) (pm : option PipelineManager) : list event :=
  match pm with
  | Some _ =>
      [ Log INFO "Shutting down pipeline manager...";
        Called "pipeline_manager.unload_pipeline" ]
      ++ match pm_unload_pipeline w with
         | Ok _ => [ Returned "pipeline_manager.unload_pipeline";
                     Log INFO "Pipeline manager shutdown complete" ]
         | Raise e => [ Raised "pipeline_manager.unload_pipeline" e ]
         end
  | None => []
  end.

(** [get_webrtc_manager], [get_pipeline_manager]: the dependencies read the
    globals when the request arrives. *)
Definition get_webrtc_manager : M (option WebRTCManager) :=
  s <~ get;; ret (webrtc_manager s).

Definition get_pipeline_manager : M (option PipelineManager) :=
  s <~ get;; ret (pipeline_manager s).

(** ** Request handlers *)

(** [health_check] (lines 252-255) *)
Definition health_check (w : World) : M HealthResponse :=
  ret {| status := "healthy"; timestamp := now_isoformat w |}.

(** [load_pipeline] (lines 275-294) *)
Definition load_pipeline (request : PipelineLoadRequest)
    (pipeline_manager : option PipelineManager) : M dict :=
  try_except
    (let load_params_dict :=
       match load_params request with
       | Some p => Some (model_dump p)
       | None => None
       end in
     _ <~ getattr pipeline_manager "load_pipeline";;
     create_task (load_pipeline_coro (pipeline_id request) load_params_dict);;;
     ret ({[ "message" := "Pipeline loading initiated successfully" ]} : dict))
    [ (is_Exception,
       fun e =>
         logger_error ("Error loading pipeline: " +:+ str e);;;
         raise (HTTPException 500 (str e))) ].

(** [handle_webrtc_offer] (lines 310-330) *)
Definition handle_webrtc_offer (w : World) (request : WebRTCOfferRequest)
    (webrtc_manager : option WebRTCManager)
    (pipeline_manager : option PipelineManager) : M WebRTCOfferResponse :=
  try_except
    (_ <~ getattr pipeline_manager "get_status_info_async";;
     status_info <~ await "pipeline_manager.get_status_info_async"
                      (pm_get_status_info_async w);;
     st <~ lift (subscript status_info "status");;
     (if bool_decide (st <> "loaded")
      then raise (HTTPException 400
                    "Pipeline not loaded. Please load pipeline first.")
      else ret tt);;;
     _ <~ getattr webrtc_manager "handle_offer";;
     await "webrtc_manager.handle_offer" (wm_handle_offer w request))
    [ (is_Exception,
       fun e =>
         logger_error ("Error handling WebRTC offer: " +:+ str e);;;
         raise (HTTPException 500 (str e))) ].

Definition dquote : string := String "034"%char EmptyString.

Definition log_not_found : exn :=
  HTTPException 404
    "Log file not found. The application may not have logged anything yet.".

(** [get_current_logs] (lines 443-471) *)
Definition get_current_logs (w : World) : M Response :=
  try_except
    (log_file_path <~ call "get_most_recent_log_file" (get_most_recent_log_file w);;
     match log_file_path with
     | None => raise log_not_found
     | Some p =>
         if negb (path_exists w p) then raise log_not_found
         else
           log_content <~ lift (read_text w p);;
           ret {| content := log_content;
                  media_type := "text/plain";
                  headers :=
                    [ ("Content-Disposition",
                       "attachment; filename=" +:+ dquote
                       +:+ replace (path_name p) ".log" ".txt" +:+ dquote) ] |}
     end)
    [ (is_HTTPException, fun e => raise e);
      (is_Exception,
       fun e =>
         logger_error ("Error retrieving log file: " +:+ str e);;;
         raise (HTTPException 500 (str e))) ].

(** The routes, with their dependencies resolved. *)
Definition route_load_pipeline (request : PipelineLoadRequest) : M dict :=
  pm <~ get_pipeline_manager;;
  load_pipeline request pm.

Definition route_webrtc_offer (w : World) (request : WebRTCOfferRequest)
    : M WebRTCOfferResponse :=
  wm <~ get_webrtc_manager;;
  pm <~ get_pipeline_manager;;
  handle_webrtc_offer w request wm pm.

(** ** Variations of a world, and sample worlds *)

(** The same world on a machine with or without an accelerator. *)
Definition with_cuda (b : bool) (w : World) : World :=
  {| environ := environ w; cuda_is_available := b;
     get_logs_dir := get_logs_dir w; ensure_models_dir := ensure_models_dir w;
     new_PipelineManager := new_PipelineManager w;
     new_WebRTCManager := new_WebRTCManager w;
     pm_load_pipeline := pm_load_pipeline w;
     pm_load_cancelled := pm_load_cancelled w;
     pm_get_status_info_async := pm_get_status_info_async w;
     pm_unload_pipeline := pm_unload_pipeline w; wm_stop := wm_stop w;
     wm_handle_offer := wm_handle_offer w;
     get_most_recent_log_file := get_most_recent_log_file w;
     fs := fs w; now_isoformat := now_isoformat w |}.

(** The same world with another behaviour of pipeline construction. *)
Definition with_load (f : string -> option dict -> Behaviour bool) (w : World) : World :=
  {| environ := environ w; cuda_is_available := cuda_is_available w;
     get_logs_dir := get_logs_dir w; ensure_models_dir := ensure_models_dir w;
     new_PipelineManager := new_PipelineManager w;
     new_WebRTCManager := new_WebRTCManager w;
     pm_load_pipeline := f;
     pm_load_cancelled := pm_load_cancelled w;
     pm_get_status_info_async := pm_get_status_info_async w;
     pm_unload_pipeline := pm_unload_pipeline w; wm_stop := wm_stop w;
     wm_handle_offer := wm_handle_offer w;
     get_most_recent_log_file := get_most_recent_log_file w;
     fs := fs w; now_isoformat := now_isoformat w |}.

(** The same world with another answer of the status query. *)
Definition with_status (r : result dict) (w : World) : World :=
  {| environ := environ w; cuda_is_available := cuda_is_available w;
     get_logs_dir := get_logs_dir w; ensure_models_dir := ensure_models_dir w;
     new_PipelineManager := new_PipelineManager w;
     new_WebRTCManager := new_WebRTCManager w;
     pm_load_pipeline := pm_load_pipeline w;
     pm_load_cancelled := pm_load_cancelled w;
     pm_get_status_info_async := r;
     pm_unload_pipeline := pm_unload_pipeline w; wm_stop := wm_stop w;
     wm_handle_offer := wm_handle_offer w;
     get_most_recent_log_file := get_most_recent_log_file w;
     fs := fs w; now_isoformat := now_isoformat w |}.

(** A machine without an accelerator, started with PIPELINE=longlive, whose
    pipeline construction fails after 12 seconds and gives way at once when
    cancelled; the pipeline is still loading, one log file exists. *)
Definition demo_world : World :=
  {| environ := {[ "PIPELINE" := "longlive" ]};
     cuda_is_available := false;
     get_logs_dir := Ok ["logs"];
     ensure_models_dir := Ok ["models"];
     new_PipelineManager := Ok PipelineManager_instance;
     new_WebRTCManager := Ok WebRTCManager_instance;
     pm_load_pipeline :=
       fun _ _ => Completes 12 (Raise (Exception "RuntimeError" "CUDA out of memory"));
     pm_load_cancelled :=
       fun _ _ => Completes 0 (Raise (BaseException "CancelledError" EmptyString));
     pm_get_status_info_async := Ok {[ "status" := "loading" ]};
     pm_unload_pipeline := Ok tt;
     wm_stop := Ok tt;
     wm_handle_offer :=
       fun request => Ok {| answer_sdp := offer_sdp request; answer_type := "answer" |};
     get_most_recent_log_file := Ok (Some ["logs"; "scope-logs-1.log"]);
     fs := {[ ["logs"; "scope-logs-1.log"] := RegularFile "started" ]};
     now_isoformat := "2025-01-01T00:00:00" |}.

(** The same machine when pipeline construction never comes back. *)
Definition stuck_world : World := with_load (fun _ _ => Hangs) demo_world.

(** The same machine once the pipeline is loaded. *)
Definition loaded_world : World :=
  with_status (Ok {[ "status" := "loaded" ]}) demo_world.

(** The state after a successful startup, all tasks run. *)
Definition serving : State :=
  {| webrtc_manager := Some WebRTCManager_instance;
     pipeline_manager := Some PipelineManager_instance;
     ready := []; running := [] |}.

Definition demo_load_request : PipelineLoadRequest :=
  {| pipeline_id := "longlive"; load_params := None |}.

Definition demo_offer : WebRTCOfferRequest :=
  {| offer_sdp := "v=0"; offer_type := "offer" |}.

Definition noise_record : LogRecord :=
  {| name := "asyncio"; levelno := ERROR;
     message := "Task exception was never retrieved" |}.

(** The acknowledgment of the load endpoint. *)
Definition load_ack : dict :=
  {[ "message" := "Pipeline loading initiated successfully" ]}.

Definition needle : string := "Task exception was never retrieved".

(** ** More of Python's strings and paths *)

(** [c.isspace()] on the ASCII range: tab to carriage return, the four
    separators 28-31, and the space. *)
Definition is_space (c : ascii) : bool :=
  let n := nat_of_ascii c in
  ((9 <=? n)%nat && (n <=? 13)%nat) || ((28 <=? n)%nat && (n <=? 32)%nat).

(** [s.lstrip()], [s.rstrip()], [s.strip()] *)
Fixpoint lstrip (s : string) : string :=
  match s with
  | EmptyString => EmptyString
  | String c s' => if is_space c then lstrip s' else s
  end.

Fixpoint rstrip (s : string) : string :=
  match s with
  | EmptyString => EmptyString
  | String c s' =>
      match rstrip s' with
      | EmptyString => if is_space c then EmptyString else String c EmptyString
      | r => String c r
      end
  end.

Definition strip (s : string) : string := rstrip (lstrip s).

(** Strings made of whitespace only, and strings free of it. *)
Fixpoint all_space (s : string) : bool :=
  match s with
  | EmptyString => true
  | String c s' => is_space c && all_space s'
  end.

Fixpoint no_space (s : string) : bool :=
  match s with
  | EmptyString => true
  | String c s' => negb (is_space c) && no_space s'
  end.

(** [s.rfind(".")], [None] standing for -1. *)
Fixpoint rfind_dot (s : string) : option nat :=
  match s with
  | EmptyString => None
  | String c s' =>
      match rfind_dot s' with
      | Some i => Some (S i)
      | None => if Ascii.eqb c "."%char then Some O else None
      end
  end.

(** [s[:n]] *)
Fixpoint str_take (n : nat) (s : string) : string :=
  match n, s with
  | S k, String c s' => String c (str_take k s')
  | _, _ => EmptyString
  end.

(** [p.stem]: the name up to its last dot, when that dot is neither the
    first nor the last character. *)
Definition stem (p : Path) : string :=
  let name := path_name p in
  match rfind_dot name with
  | Some i =>
      if (0 <? i)%nat && (i <? String.length name - 1)%nat
      then str_take i name
      else name
  | None => name
  end.

(** [p.parent]; the parent of the anchor is the anchor. *)
Definition parent (p : Path) : Path := removelast p.

(** [p.relative_to(base)] *)
Definition relative_to (p base : Path) : result Path :=
  if bool_decide (take (length base) p = base)
  then Ok (drop (length base) p)
  else Raise (Exception "ValueError"
                (path_str p +:+ " is not in the subpath of " +:+ path_str base)).

(** ** The disk, as the static and LoRA handlers see it *)

Record Disk : Type := {
  module_file : Path;                  (* Path(__file__) *)
  disk_exists : Path -> bool;          (* p.exists() *)
  disk_is_file : Path -> bool;         (* p.is_file() *)
  disk_is_dir : Path -> bool;          (* p.is_dir() *)
  joinpath : Path -> string -> Path;   (* p / s for a string from the request *)
  rglob : Path -> string -> list Path; (* list(p.rglob(pattern)) *)
  st_size : Path -> result Z;          (* p.stat().st_size *)
  get_models_dir : result Path
}.

(** [Path(__file__).parent.parent.parent.parent / "frontend" / "dist"], the
    directory of [configure_static_files], [root] and [serve_frontend]. *)
Definition frontend_dist (d : Disk) : Path :=
  parent (parent (parent (parent (module_file d)))) ++ ["frontend"; "dist"].

(** [Path(__file__).parent.parent.parent / "frontend" / "dist"], the
    directory [main] looks at. *)
Definition frontend_dist_main (d : Disk) : Path :=
  parent (parent (parent (module_file d))) ++ ["frontend"; "dist"].

(** ** Static routes (lines 258-272 and 474-493) *)

Inductive StaticResponse : Type :=
| JsonMessage (body : dict)
| FileResponse (p : Path).

(** [root] *)
Definition root (d : Disk) : M StaticResponse :=
  let frontend_dist := frontend_dist d in
  if negb (disk_exists d frontend_dist)
  then ret (JsonMessage {[ "message" := "Scope API - Frontend not built" ]})
  else
    let index_file := frontend_dist ++ ["index.html"] in
    if disk_exists d index_file then ret (FileResponse index_file)
    else ret (JsonMessage {[ "message" := "Scope API - Frontend index.html not found" ]}).


(** ** Model download and model status (lines 392-423) *)

(** [get_model_status]; [downloaded] is the outcome of
    [models_are_downloaded(pipeline_id)]. *)
Definition get_model_status (downloaded : result bool) : M bool :=
  try_except
    (call "models_are_downloaded" downloaded)
    [ (is_Exception,
       fun e =>
         logger_error ("Error checking model status: " +:+ str e);;;
         raise (HTTPException 500 (str e))) ].

(** [download_pipeline_models]; [thread_start] is the outcome of starting
    the daemon thread that downloads. *)
Definition download_pipeline_models (thread_start : result unit)
    (pipeline_id : string) : M dict :=
  try_except
    ((if negb (bool_decide (pipeline_id <> EmptyString))
      then raise (HTTPException 400 "pipeline_id is required")
      else ret tt);;;
     call "threading.Thread.start" thread_start;;;
     ret ({[ "message" := "Model download started for " +:+ pipeline_id ]} : dict))
    [ (is_Exception,
       fun e =>
         logger_error ("Error starting model download: " +:+ str e);;;
         raise (HTTPException 500 (str e))) ].

(** [get_pipeline_status] (lines 297-307); [validate] is the construction
    of PipelineStatusResponse from the status dict. *)
Definition get_pipeline_status {R : Type} (w : World) (validate : dict -> result R)
    (pipeline_manager : option PipelineManager) : M R :=
  try_except
    (_ <~ getattr pipeline_manager "get_status_info_async";;
     status_info <~ await "pipeline_manager.get_status_info_async"
                      (pm_get_status_info_async w);;
     lift (validate status_info))
    [ (is_Exception,
       fun e =>
         logger_error ("Error getting pipeline status: " +:+ str e);;;
         raise (HTTPException 500 (str e))) ].

(** ** LoRA listing (lines 341-389) *)

Record LoRAFileInfo : Type := {
  lora_name : string;
  lora_path : string;
  size_mb : Z;              (* in hundredths of a MiB *)
  folder : option string
}.

(** [round(st_size / (1024 * 1024), 2)], as a number of hundredths: the
    quotient by 2^20 is exact in a float (for sizes below 2^53) and [round]
    takes the nearest hundredth of it, an exact tie going to the even one. *)
Definition round_size_mb (st_size : Z) : Z :=
  let q := (st_size * 100) / 1048576 in
  let r := (st_size * 100) mod 1048576 in
  if r <? 524288 then q
  else if 524288 <? r then q + 1
  else if Z.even q then q else q + 1.

(** [process_lora_file] *)
Definition process_lora_file (d : Disk) (file_path lora_dir : Path) : M LoRAFileInfo :=
  size <~ lift (st_size d file_path);;
  relative_path <~ lift (relative_to file_path lora_dir);;
  let folder :=
    if bool_decide (parent relative_path <> [])
    then Some (path_str (parent relative_path))
    else None in
  ret {| lora_name := stem file_path;
         lora_path := path_str file_path;
         size_mb := round_size_mb size;
         folder := folder |}.

(** The inner loop: the regular files among [files], appended in order. *)
Fixpoint collect_files (d : Disk) (lora_dir : Path) (files : list Path)
    (lora_files : list LoRAFileInfo) : M (list LoRAFileInfo) :=
  match files with
  | [] => ret lora_files
  | file_path :: rest =>
      if disk_is_file d file_path then
        info <~ process_lora_file d file_path lora_dir;;
        collect_files d lora_dir rest (lora_files ++ [info])
      else collect_files d lora_dir rest lora_files
  end.

(** The outer loop, over the patterns. *)
Fixpoint collect_patterns (d : Disk) (lora_dir : Path) (patterns : list string)
    (lora_files : list LoRAFileInfo) : M (list LoRAFileInfo) :=
  match patterns with
  | [] => ret lora_files
  | pattern :: rest =>
      lora_files <~ collect_files d lora_dir (rglob d lora_dir pattern) lora_files;;
      collect_patterns d lora_dir rest lora_files
  end.

(** The sort key [(x.folder or "", x.name)] and the order of such pairs. *)
Definition sort_key (x : LoRAFileInfo) : string * string :=
  (default EmptyString (folder x), lora_name x).

Definition key_le (a b : string * string) : bool :=
  match String.compare a.1 b.1 with
  | Lt => true
  | Eq => String.leb a.2 b.2
  | Gt => false
  end.

(** [list.sort(key=...)]: a stable sort; an element goes before the first
    one whose key is not below its own. *)
Fixpoint sort_insert (x : LoRAFileInfo) (l : list LoRAFileInfo) : list LoRAFileInfo :=
  match l with
  | [] => [x]
  | y :: l' =>
      if key_le (sort_key x) (sort_key y) then x :: y :: l'
      else y :: sort_insert x l'
  end.

Fixpoint sort_by_key (l : list LoRAFileInfo) : list LoRAFileInfo :=
  match l with
  | [] => []
  | x :: l' => sort_insert x (sort_by_key l')
  end.

(** The order of the listing: [x] may stand before [y]. *)
Definition listed_before (x y : LoRAFileInfo) : Prop :=
  key_le (sort_key x) (sort_key y) = true.

Definition lora_patterns : list string := ["*.safetensors"; "*.bin"; "*.pt"].

(** [list_lora_files] *)
Definition list_lora_files (d : Disk) : M (list LoRAFileInfo) :=
  try_except
    (models_dir <~ call "get_models_dir" (get_models_dir d);;
     let lora_dir := models_dir ++ ["lora"] in
     lora_files <~ (if disk_exists d lora_dir && disk_is_dir d lora_dir
                    then collect_patterns d lora_dir lora_patterns []
                    else ret []);;
     ret (sort_by_key lora_files))
    [ (is_Exception,
       fun e =>
         logger_error ("list_lora_files: Error listing LoRA files: " +:+ str e);;;
         raise (HTTPException 500 (str e))) ].

(** ** The command line (lines 108-157 and 496-597) *)

(** What the process does outside the event loop, in order. *)
Inductive action : Type :=
| Print (line : string)
| Info (msg : string)                                  (* logger.info(msg) *)
| Mount (route : string) (directory : Path)            (* app.mount(route, StaticFiles(...)) *)
| Sleep                                                (* time.sleep(0.1) *)
| OpenBrowser (url : string)                           (* webbrowser.open(url) *)
| StartBrowserThread (host : string) (port : Z)
| ServerRun (host : string) (port : Z) (reload : bool) (* uvicorn.Server(config).run() *)
| UvicornRun (host : string) (port : Z) (reload : bool).

(** A computation of the command line: its actions and its outcome. *)
Definition P (A : Type) : Type := list action * result A.

Definition p_ret {A} (a : A) : P A := ([], Ok a).

Definition p_bind {A B} (m : P A) (k : A -> P B) : P B :=
  match m with
  | (l1, Ok a) => let '(l2, r) := k a in (l1 ++ l2, r)
  | (l1, Raise e) => (l1, Raise e)
  end.

Declare Scope proc_scope.
Delimit Scope proc_scope with proc.
Notation "x <~ m ;; k" := (p_bind m (fun x => k))
  (at level 100, m at next level, right associativity) : proc_scope.
Notation "m ;;; k" := (p_bind m (fun _ => k))
  (at level 100, right associativity) : proc_scope.

Definition p_raise {A} (e : exn) : P A := ([], Raise e).

Definition p_lift {A} (r : result A) : P A := ([], r).

Definition act (a : action) : P unit := ([a], Ok tt).

Fixpoint p_handle {A} (clauses : list ((exn -> bool) * (exn -> P A))) (e : exn) : P A :=
  match clauses with
  | [] => p_raise e
  | (accepts, handler) :: rest =>
      if accepts e then handler e else p_handle rest e
  end.

Definition p_try {A} (body : P A) (clauses : list ((exn -> bool) * (exn -> P A))) : P A :=
  match body with
  | (l1, Ok a) => (l1, Ok a)
  | (l1, Raise e) => let '(l2, r) := p_handle clauses e in (l1 ++ l2, r)
  end.

(** [isinstance(e, (C1, C2, ...))] for exception classes given by name. *)
Definition raised_as (classes : list string) (e : exn) : bool :=
  match e with
  | Exception cls _ => bool_decide (cls ∈ classes)
  | _ => false
  end.

Record CompletedProcess : Type := { returncode : Z; stdout : string }.

(** What the command line finds on the machine. *)
Record Host : Type := {
  pkg_version : result string;             (* version("daydream-scope") *)
  git_rev_parse : result CompletedProcess; (* subprocess.run(["git", "rev-parse", ...]) *)
  server_run : result unit;                (* server.run() *)
  uvicorn_run : result unit                (* uvicorn.run(...) *)
}.

(** [get_git_commit_hash] *)
Definition get_git_commit_hash (h : Host) : P string :=
  p_try
    (result <~ p_lift (git_rev_parse h);;
     if bool_decide (returncode result = 0)
     then p_ret (strip (stdout result))
     else p_ret "unknown (not a git repository)")%proc
    [ (raised_as ["TimeoutExpired"; "CalledProcessError"],
       fun _ => p_ret "unknown (git error)");
      (raised_as ["FileNotFoundError"], fun _ => p_ret "unknown (git not installed)");
      (is_Exception, fun _ => p_ret "unknown") ].

(** [print_version_info] *)
Definition print_version_info (h : Host) : P unit :=
  (pkg_version <~ p_try (p_lift (pkg_version h))
                    [ (is_Exception, fun _ => p_ret "unknown") ];;
   git_hash <~ get_git_commit_hash h;;
   act (Print ("daydream-scope: " +:+ pkg_version));;;
   act (Print ("git commit: " +:+ git_hash)))%proc.

(** [configure_static_files]; StaticFiles refuses a directory that does not
    exist. *)
Definition configure_static_files (d : Disk) : P unit :=
  let frontend_dist := frontend_dist d in
  if disk_exists d frontend_dist then
    (let assets := frontend_dist ++ ["assets"] in
     (if disk_is_dir d assets then act (Mount "/assets" assets)
      else p_raise (Exception "RuntimeError"
                      ("Directory '" +:+ path_str assets +:+ "' does not exist")));;;
     act (Info ("Serving static assets from " +:+ path_str assets)))%proc
  else act (Info "Frontend dist directory not found - running in development mode").

(** The waiting loop of [open_browser_when_ready]: [started n] is what
    [server.started] reads at the n-th look; [None] when the fuel runs out
    before the server has started. *)
Fixpoint wait_started (started : nat -> bool) (n fuel : nat) : option (list action) :=
  match fuel with
  | O => None
  | S fuel' =>
      if started n then Some []
      else cons Sleep <$> wait_started started (S n) fuel'
  end.

Definition browser_url (host : string) (port : Z) : string :=
  if bool_decide (host ∈ ["0.0.0.0"; "127.0.0.1"])
  then "http://localhost:" +:+ pretty port
  else "http://" +:+ host +:+ ":" +:+ pretty port.

(** [open_browser_when_ready]; [webbrowser_open] is the outcome of
    [webbrowser.open(url)]. *)
Definition open_browser_when_ready (fuel : nat) (started : nat -> bool)
    (webbrowser_open : result bool) (host : string) (port : Z) : option (P unit) :=
  match wait_started started 0 fuel with
  | None => None
  | Some sleeps =>
      Some
        ((sleeps, Ok tt);;;
         let url := browser_url host port in
         success <~ p_try
                      (success <~ (act (OpenBrowser url);;; p_lift webbrowser_open);;
                       (if success then act (Info ("🌐 Opened browser at " +:+ url))
                        else p_ret tt);;;
                       p_ret success)
                      [ (is_Exception, fun _ => p_ret false) ];;
         if negb success then act (Info ("🌐 UI is available at: " +:+ url))
         else p_ret tt)%proc
  end.

Record Args : Type := {
  version : bool;
  reload : bool;
  host : string;
  port : Z;
  no_browser : bool
}.

(** [isinstance(e, KeyboardInterrupt)] *)
Definition is_KeyboardInterrupt (e : exn) : bool :=
  match e with
  | BaseException cls _ => bool_decide (cls = "KeyboardInterrupt")
  | _ => false
  end.

(** [main], from the parsed arguments on. *)
Definition main (args : Args) (d : Disk) (h : Host) : P unit :=
  ((if version args
    then print_version_info h;;; p_raise (BaseException "SystemExit" "0")
    else p_ret tt);;;
   configure_static_files d;;;
   let is_production := disk_exists d (frontend_dist_main d) in
   if is_production then
     (if negb (no_browser args)
      then act (StartBrowserThread (host args) (port args))
      else act (Info "main: Skipping browser auto-launch due to --no-browser"));;;
     p_try
       (act (ServerRun (host args) (port args) (reload args));;; p_lift (server_run h))
       [ (is_KeyboardInterrupt, fun _ => p_ret tt) ]
   else
     act (UvicornRun (host args) (port args) (reload args));;;
     p_lift (uvicorn_run h))%proc.

(** ** A sample disk and host *)

(** A checkout with a built frontend and three LoRA files, two of them
    with the same name in the same folder. *)
Definition demo_disk : Disk :=
  {| module_file := ["repo"; "src"; "scope"; "server"; "app.py"];
     disk_exists := fun p =>
       bool_decide (p ∈ [ ["repo"; "frontend"; "dist"];
                          ["repo"; "frontend"; "dist"; "index.html"];
                          ["repo"; "frontend"; "dist"; "assets"];
                          ["repo"; "frontend"; "dist"; "favicon.ico"];
                          ["models"; "lora"];
                          ["models"; "lora"; "style.safetensors"];
                          ["models"; "lora"; "anime"; "ink.pt"];
                          ["models"; "lora"; "anime"; "ink.bin"];
                          ["models"; "lora"; "cache.bin"] ]);
     disk_is_file := fun p =>
       bool_decide (p ∈ [ ["repo"; "frontend"; "dist"; "index.html"];
                          ["repo"; "frontend"; "dist"; "favicon.ico"];
                          ["models"; "lora"; "style.safetensors"];
                          ["models"; "lora"; "anime"; "ink.pt"];
                          ["models"; "lora"; "anime"; "ink.bin"] ]);
     disk_is_dir := fun p =>
       bool_decide (p ∈ [ ["repo"; "frontend"; "dist"];
                          ["repo"; "frontend"; "dist"; "assets"];
                          ["models"; "lora"];
                          ["models"; "lora"; "cache.bin"] ]);
     joinpath := fun base s => base ++ [s];
     rglob := fun p pattern =>
       if bool_decide (pattern = "*.safetensors")
       then [ ["models"; "lora"; "style.safetensors"] ]
       else if bool_decide (pattern = "*.bin")
       then [ ["models"; "lora"; "cache.bin"]; ["models"; "lora"; "anime"; "ink.bin"] ]
       else if bool_decide (pattern = "*.pt")
       then [ ["models"; "lora"; "anime"; "ink.pt"] ]
       else [];
     st_size := fun p =>
       if bool_decide (p = ["models"; "lora"; "style.safetensors"]) then Ok 131072
       else Ok 150000000;
     get_models_dir := Ok ["models"] |}.

(** A machine with git, inside a checkout, whose server runs until Ctrl+C. *)
Definition demo_host : Host :=
  {| pkg_version := Ok "0.1.0";
     git_rev_parse :=
       Ok {| returncode := 0; stdout := "abc1234" +:+ String "010"%char EmptyString |};
     server_run := Raise (BaseException "KeyboardInterrupt" "");
     uvicorn_run := Raise (BaseException "KeyboardInterrupt" "") |}.

Definition demo_args : Args :=
  {| version := false; reload := false; host := "127.0.0.1"; port := 8000;
     no_browser := false |}.

(** A machine whose only log file is not valid UTF-8. *)
Definition unreadable_world : World :=
  {| environ := environ demo_world;
     cuda_is_available := cuda_is_available demo_world;
     get_logs_dir := get_logs_dir demo_world;
     ensure_models_dir := ensure_models_dir demo_world;
     new_PipelineManager := new_PipelineManager demo_world;
     new_WebRTCManager := new_WebRTCManager demo_world;
     pm_load_pipeline := pm_load_pipeline demo_world;
     pm_load_cancelled := pm_load_cancelled demo_world;
     pm_get_status_info_async := pm_get_status_info_async demo_world;
     pm_unload_pipeline := pm_unload_pipeline demo_world;
     wm_stop := wm_stop demo_world;
     wm_handle_offer := wm_handle_offer demo_world;
     get_most_recent_log_file := get_most_recent_log_file demo_world;
     fs := {[ ["logs"; "scope-logs-1.log"]
              := Unreadable (Exception "UnicodeDecodeError" "invalid start byte") ]};
     now_isoformat := now_isoformat demo_world |}.

(** A machine on which the session manager can neither be built nor, once
    there, stopped. *)
Definition failing_stop_world : World :=
  {| environ := environ demo_world;
     cuda_is_available := cuda_is_available demo_world;
     get_logs_dir := get_logs_dir demo_world;
     ensure_models_dir := ensure_models_dir demo_world;
     new_PipelineManager := new_PipelineManager demo_world;
     new_WebRTCManager := Raise (Exception "OSError" "no network interface");
     pm_load_pipeline := pm_load_pipeline demo_world;
     pm_load_cancelled := pm_load_cancelled demo_world;
     pm_get_status_info_async := pm_get_status_info_async demo_world;
     pm_unload_pipeline := pm_unload_pipeline demo_world;
     wm_stop := Raise (Exception "RuntimeError" "event loop is closed");
     wm_handle_offer := wm_handle_offer demo_world;
     get_most_recent_log_file := get_most_recent_log_file demo_world;
     fs := fs demo_world;
     now_isoformat := now_isoformat demo_world |}.

(** The demo machine with a session manager whose stop raises. *)
Definition stop_fails_world : World :=
  {| environ := environ demo_world;
     cuda_is_available := cuda_is_available demo_world;
     get_logs_dir := get_logs_dir demo_world;
     ensure_models_dir := ensure_models_dir demo_world;
     new_PipelineManager := new_PipelineManager demo_world;
     new_WebRTCManager := new_WebRTCManager demo_world;
     pm_load_pipeline := pm_load_pipeline demo_world;
     pm_load_cancelled := pm_load_cancelled demo_world;
     pm_get_status_info_async := pm_get_status_info_async demo_world;
     pm_unload_pipeline := pm_unload_pipeline demo_world;
     wm_stop := Raise (Exception "RuntimeError" "event loop is closed");
     wm_handle_offer := wm_handle_offer demo_world;
     get_most_recent_log_file := get_most_recent_log_file demo_world;
     fs := fs demo_world;
     now_isoformat := now_isoformat demo_world |}.

(** * Properties *)

(** Membership in an explicit trace: split a hypothesis into its cases,
    walk a goal down to the element. *)
Ltac trace_cases H :=
  repeat first
    [ apply elem_of_nil in H; contradiction
    | apply elem_of_app in H as [H|H]
    | apply elem_of_cons in H as [H|H] ];
  try discriminate H.

Ltac trace_find :=
  repeat first
    [ apply list_elem_of_here
    | apply list_elem_of_further
    | apply elem_of_app; right ].

(** ** Strings *)

Lemma prefix_append (a b : string) : String.prefix a (a +:+ b) = true.
Proof.
  induction a as [|c a IH]; simpl.
  - by destruct b.
  - destruct (Ascii.ascii_dec c c); [exact IH | congruence].
Qed.

Lemma prefix_inv (a s : string) :
  String.prefix a s = true -> exists b, s = a +:+ b.
Proof.
  revert s. induction a as [|c a IH]; intros s H.
  - by exists s.
  - destruct s as [|d s]; simpl in H; [discriminate|].
    destruct (Ascii.ascii_dec c d) as [->|]; [|discriminate].
    destruct (IH _ H) as [b ->]. by exists b.
Qed.

Lemma contains_unfold (n s : string) :
  contains n s =
    if String.prefix n s then true
    else match s with
         | EmptyString => false
         | String _ s' => contains n s'
         end.
Proof. by destruct s. Qed.

Lemma contains_spec (n s : string) :
  contains n s = true <-> exists pre post, s = pre +:+ n +:+ post.
Proof.
  split.
  - induction s as [|c s IH]; rewrite contains_unfold;
      destruct (String.prefix n _) eqn:Hp; intros H.
    + apply prefix_inv in Hp as [b ->]. by exists EmptyString, b.
    + discriminate.
    + apply prefix_inv in Hp as [b ->]. by exists EmptyString, b.
    + destruct (IH H) as (pre & post & ->). by exists (String c pre), post.
  - intros (pre & post & ->).
    induction pre as [|c pre IH]; rewrite contains_unfold.
    + change (EmptyString +:+ n +:+ post) with (n +:+ post).
      by rewrite prefix_append.
    + destruct (String.prefix n _); [done|]. exact IH.
Qed.

(** ** The log filter *)

Lemma asyncio_filters (w : World) (log_file : Path) :
  filters (getLogger "asyncio" (configure_logging w log_file)) = [STUNErrorFilter].
Proof.
  unfold configure_logging. destruct (truthy _); reflexivity.
Qed.

(** C6: [STUNErrorFilter.filter] returns False exactly for the records
    whose message contains "Task exception was never retrieved" and True
    for every other record; the module attaches it to the "asyncio" logger,
    which therefore drops exactly those records. *)
Theorem stun_filter_suppresses_exactly (w : World) (log_file : Path) (record : LogRecord) :
  (STUNErrorFilter_filter record = false <->
     exists pre post, getMessage record = pre +:+ needle +:+ post)
  /\ (STUNErrorFilter_filter record = true <->
        ~ exists pre post, getMessage record = pre +:+ needle +:+ post)
  /\ filters (getLogger "asyncio" (configure_logging w log_file)) = [STUNErrorFilter]
  /\ Logger_filter (getLogger "asyncio" (configure_logging w log_file)) record
     = STUNErrorFilter_filter record.
Proof.
  assert (Hf : STUNErrorFilter_filter record = negb (contains needle (getMessage record))).
  { unfold STUNErrorFilter_filter, needle. by destruct (contains _ _). }
  pose proof (contains_spec needle (getMessage record)) as Hc.
  repeat split.
  - rewrite Hf. intros H. apply Hc. by destruct (contains _ _).
  - rewrite Hf. intros H. apply Hc in H. by rewrite H.
  - rewrite Hf. intros H Hex. apply Hc in Hex. by rewrite Hex in H.
  - rewrite Hf. intros H. destruct (contains _ _); [|done].
    exfalso. apply H, Hc. done.
  - apply asyncio_filters.
  - unfold Logger_filter. rewrite asyncio_filters. simpl.
    by rewrite andb_true_r.
Qed.

(** ** Health probe *)

(** C9: [health_check] returns, whatever the state of the managers, the
    task queues and the world: its response carries status "healthy" and
    the current timestamp, it is answered with 200. *)
Theorem health_check_always_healthy (w : World) (s : State) :
  exists r,
    health_check w s = (Ok r, s, [])
    /\ status r = "healthy"
    /\ timestamp r = now_isoformat w
    /\ http_status (serve w (health_check w) s).1.1 = 200.
Proof.
  exists {| status := "healthy"; timestamp := now_isoformat w |}.
  repeat split.
Qed.

(** ** Tasks run by the loop *)

Lemma settle_events_cons (w : World) (c : coro) (l : list coro) :
  settle_events w (c :: l)
  = (run_coro w c).1 ++ [TaskSettled c (run_coro w c).2] ++ settle_events w l.
Proof.
  unfold settle_events. simpl. destruct (run_coro w c) as [lg b]. simpl.
  by rewrite <- app_assoc.
Qed.

Lemma settle_events_elem (w : World) (c : coro) (l : list coro) :
  c ∈ l -> TaskSettled c (run_coro w c).2 ∈ settle_events w l.
Proof.
  induction l as [|d l IH]; intros Hc.
  - by apply elem_of_nil in Hc.
  - rewrite settle_events_cons. apply elem_of_cons in Hc as [<-|Hc].
    + apply elem_of_app. right. apply elem_of_app. left. apply list_elem_of_here.
    + apply elem_of_app. right. apply elem_of_app. right. by apply IH.
Qed.

(** A task writes log lines and nothing else. *)
Lemma run_coro_logs (w : World) (c : coro) (ev : event) :
  ev ∈ (run_coro w c).1 -> exists lvl msg, ev = Log lvl msg.
Proof.
  assert (Hl : (run_coro w c).1 = []
               \/ exists lvl msg, (run_coro w c).1 = [Log lvl msg]).
  { destruct c as [pid lp|pid]; simpl;
      unfold prewarm_pipeline, co_try_except, co_bind, co_await, wait_for,
        timed_out, co_log;
      destruct (pm_load_pipeline w pid _) as [t [b|e]|]; simpl;
      repeat case_bool_decide; simpl;
      try (destruct (pm_load_cancelled w pid None) as [dt [b'|e']|]); simpl;
      try (destruct (is_CancelledError e')); simpl;
      try (destruct (is_Exception e)); try (destruct (is_Exception e'));
      simpl; eauto. }
  destruct Hl as [-> | (lvl & msg & ->)]; intros H.
  - by apply elem_of_nil in H.
  - apply list_elem_of_singleton in H. eauto.
Qed.

Lemma settle_events_no_response (w : World) (l : list coro) (code : Z) :
  Responded code ∉ settle_events w l.
Proof.
  induction l as [|d l IH]; [apply not_elem_of_nil|].
  rewrite settle_events_cons. intros H.
  apply elem_of_app in H as [H|H].
  - apply run_coro_logs in H as (lvl & msg & H). discriminate.
  - apply elem_of_app in H as [H|H]; [|by apply IH].
    apply list_elem_of_singleton in H. discriminate.
Qed.

(** ** The load endpoint *)

Lemma route_load_pipeline_run (request : PipelineLoadRequest) (s : State)
    (pm : PipelineManager) :
  pipeline_manager s = Some pm ->
  route_load_pipeline request s
  = (Ok load_ack,
     {| webrtc_manager := webrtc_manager s; pipeline_manager := pipeline_manager s;
        ready := ready s ++ [load_pipeline_coro (pipeline_id request)
                               (model_dump <$> load_params request)];
        running := running s |},
     [TaskCreated (load_pipeline_coro (pipeline_id request)
                     (model_dump <$> load_params request))]).
Proof.
  intros Hpm. destruct s as [wm0 pm0 rd rn]. simpl in Hpm. subst pm0.
  unfold route_load_pipeline, get_pipeline_manager, load_pipeline, bind,
    try_except, get, ret. simpl.
  by destruct (load_params request).
Qed.

Lemma serve_load_pipeline_run (w : World) (request : PipelineLoadRequest)
    (s : State) (pm : PipelineManager) :
  pipeline_manager s = Some pm ->
  let c := load_pipeline_coro (pipeline_id request)
             (model_dump <$> load_params request) in
  (serve w (route_load_pipeline request) s).1.1 = Ok load_ack
  /\ (serve w (route_load_pipeline request) s).2
     = [TaskCreated c; Responded 200]
       ++ (TaskStarted <$> (ready s ++ [c]))
       ++ settle_events w (running s ++ ready s ++ [c]).
Proof.
  intros Hpm c. unfold serve. rewrite (route_load_pipeline_run _ _ _ Hpm).
  fold c. simpl. split; [done|]. by rewrite ?app_nil_r.
Qed.

(** C2: with the pipeline manager in place, the load endpoint returns its
    acknowledgment having only queued the construction: when the handler
    returns, the task is in the ready queue and has not had a turn; in the
    trace of the request the response comes right after the task's creation,
    and the task starts and ends after it. *)
Theorem load_pipeline_acks_before_task_runs (w : World)
    (request : PipelineLoadRequest) (s : State) (pm : PipelineManager) :
  pipeline_manager s = Some pm ->
  let c := load_pipeline_coro (pipeline_id request)
             (model_dump <$> load_params request) in
  (exists s',
     route_load_pipeline request s = (Ok load_ack, s', [TaskCreated c])
     /\ ready s' = ready s ++ [c]
     /\ running s' = running s)
  /\ exists post,
       (serve w (route_load_pipeline request) s).2
       = [TaskCreated c; Responded 200] ++ post
       /\ TaskStarted c ∈ post
       /\ TaskSettled c (run_coro w c).2 ∈ post.
Proof.
  intros Hpm c. split.
  - eexists. split; [by apply (route_load_pipeline_run _ _ pm)|]. done.
  - destruct (serve_load_pipeline_run w request s pm Hpm) as [_ Hev].
    eexists. split; [exact Hev|]. split.
    + apply elem_of_app. left. apply list_elem_of_fmap. exists c.
      split; [done|]. apply elem_of_app. right. apply list_elem_of_here.
    + apply elem_of_app. right. apply settle_events_elem.
      apply elem_of_app. right. apply elem_of_app. right. apply list_elem_of_here.
Qed.

Lemma load_pipeline_acks_before_task_runs_witness :
  exists post,
    (serve stuck_world (route_load_pipeline demo_load_request) serving).2
    = [TaskCreated (load_pipeline_coro "longlive" None); Responded 200] ++ post
    /\ TaskSettled (load_pipeline_coro "longlive" None) Hangs ∈ post.
Proof.
  destruct (load_pipeline_acks_before_task_runs stuck_world demo_load_request
              serving PipelineManager_instance eq_refl)
    as [_ (post & Hev & _ & Hset)].
  exists post. split; [exact Hev | exact Hset].
Defined.

(** C4: with the pipeline manager in place, the answer to a load request is
    the success acknowledgment whatever the construction does later; when
    the construction raises, the exception ends the task and appears
    nowhere in the response, which stays the only one and is a 200. *)
Theorem load_failure_never_reaches_response (w : World)
    (request : PipelineLoadRequest) (s : State) (pm : PipelineManager) :
  pipeline_manager s = Some pm ->
  let c := load_pipeline_coro (pipeline_id request)
             (model_dump <$> load_params request) in
  let run := serve w (route_load_pipeline request) s in
  run.1.1 = Ok load_ack
  /\ Responded 200 ∈ run.2
  /\ (forall code, Responded code ∈ run.2 -> code = 200)
  /\ (forall elapsed e,
        pm_load_pipeline w (pipeline_id request) (model_dump <$> load_params request)
        = Completes elapsed (Raise e) ->
        TaskSettled c (Completes elapsed (Raise e)) ∈ run.2).
Proof.
  intros Hpm c run.
  destruct (serve_load_pipeline_run w request s pm Hpm) as [Hr Hev].
  fold c in Hev. fold run in Hr, Hev. split; [exact Hr|]. rewrite Hev.
  split; [|split].
  - apply elem_of_cons. right. apply list_elem_of_here.
  - intros code H. apply elem_of_app in H as [H|H].
    + apply elem_of_cons in H as [H|H]; [discriminate|].
      apply list_elem_of_singleton in H. congruence.
    + apply elem_of_app in H as [H|H].
      * apply list_elem_of_fmap in H as (d & H & _). discriminate.
      * by apply settle_events_no_response in H.
  - intros elapsed e Hload.
    apply elem_of_app. right. apply elem_of_app. right.
    replace (Completes elapsed (Raise e)) with (run_coro w c).2.
    + apply settle_events_elem.
      apply elem_of_app. right. apply elem_of_app. right. apply list_elem_of_here.
    + unfold c. simpl. unfold co_bind, co_await. by rewrite Hload.
Qed.

Lemma load_failure_never_reaches_response_witness :
  (serve demo_world (route_load_pipeline demo_load_request) serving).1.1 = Ok load_ack
  /\ TaskSettled (load_pipeline_coro "longlive" None)
       (Completes 12 (Raise (Exception "RuntimeError" "CUDA out of memory")))
     ∈ (serve demo_world (route_load_pipeline demo_load_request) serving).2.
Proof.
  destruct (load_failure_never_reaches_response demo_world demo_load_request
              serving PipelineManager_instance eq_refl)
    as (Hr & _ & _ & Hfail).
  split; [exact Hr|]. exact (Hfail 12 _ eq_refl).
Defined.

(** ** The offer endpoint *)

(** With a status other than "loaded" the handler raises its 400 inside
    the [try]; the [except Exception] clause of the same [try] catches it,
    HTTPException being an Exception, and raises a 500 in its place. *)
Lemma offer_not_loaded_run (w : World) (request : WebRTCOfferRequest) (s : State)
    (wm : WebRTCManager) (pm : PipelineManager) (d : dict) (st : string) :
  webrtc_manager s = Some wm ->
  pipeline_manager s = Some pm ->
  pm_get_status_info_async w = Ok d ->
  d !! "status" = Some st ->
  st <> "loaded" ->
  (route_webrtc_offer w request s).1.1
  = Raise (HTTPException 500 "400: Pipeline not loaded. Please load pipeline first.").
Proof.
  intros Hwm Hpm Hst Hd Hne. destruct s as [wm0 pm0 rd rn]. simpl in Hwm, Hpm.
  subst wm0 pm0.
  unfold route_webrtc_offer, get_webrtc_manager, get_pipeline_manager,
    handle_webrtc_offer, bind, try_except, await, get, ret, lift. simpl.
  rewrite Hst. simpl. unfold subscript. rewrite Hd. simpl.
  case_bool_decide; [reflexivity | contradiction].
Qed.

(** With status "loaded" the offer goes to [webrtc_manager.handle_offer]
    and its answer is the handler's. *)
Lemma offer_loaded_run (w : World) (request : WebRTCOfferRequest) (s : State)
    (wm : WebRTCManager) (pm : PipelineManager) (d : dict)
    (answer : WebRTCOfferResponse) :
  webrtc_manager s = Some wm ->
  pipeline_manager s = Some pm ->
  pm_get_status_info_async w = Ok d ->
  d !! "status" = Some "loaded" ->
  wm_handle_offer w request = Ok answer ->
  (route_webrtc_offer w request s).1.1 = Ok answer
  /\ Called "webrtc_manager.handle_offer" ∈ (route_webrtc_offer w request s).2.
Proof.
  intros Hwm Hpm Hst Hd Hans. destruct s as [wm0 pm0 rd rn]. simpl in Hwm, Hpm.
  subst wm0 pm0.
  unfold route_webrtc_offer, get_webrtc_manager, get_pipeline_manager,
    handle_webrtc_offer, bind, try_except, await, get, ret, lift. simpl.
  rewrite Hst. simpl. unfold subscript. rewrite Hd. simpl.
  rewrite Hans. simpl. split; [reflexivity|].
  apply list_elem_of_further, elem_of_app. right. trace_find.
Qed.

(** C1, at a pipeline that is still loading: the offer is answered with
    status 500, carrying the text of the 400 the handler raised, and not
    with a client error; nothing reaches the session manager. *)
Theorem offer_while_loading_answers_500 :
  serve demo_world (route_webrtc_offer demo_world demo_offer) serving
  = (Raise (HTTPException 500 "400: Pipeline not loaded. Please load pipeline first."),
     serving,
     [ Called "pipeline_manager.get_status_info_async";
       Returned "pipeline_manager.get_status_info_async";
       Log ERROR "Error handling WebRTC offer: 400: Pipeline not loaded. Please load pipeline first.";
       Responded 500 ])
  /\ ~ (400 <= http_status
                 (serve demo_world (route_webrtc_offer demo_world demo_offer) serving).1.1
        < 500).
Proof.
  split; [reflexivity|]. intros [_ H]. vm_compute in H. discriminate H.
Qed.

(** ** Deadlines *)

(** The pre-warm task ends with the construction when that is done within
    300 seconds; past them the construction is cancelled, and once it has
    given way, [dt] seconds later, the task logs the timeout as an error
    and ends. *)
Lemma prewarm_within_deadline (w : World) (pid : string) :
  (forall t r, pm_load_pipeline w pid None = Completes t r -> t <= 300 ->
     exists t' r', (prewarm_pipeline w pid).2 = Completes t' r' /\ t' = t)
  /\ ((forall t r, pm_load_pipeline w pid None = Completes t r -> 300 < t) ->
      forall dt msg,
        pm_load_cancelled w pid None
        = Completes dt (Raise (BaseException "CancelledError" msg)) ->
        prewarm_pipeline w pid
        = ([Log ERROR ("Error pre-warming pipeline " +:+ pid +:+ " in background: ")],
           Completes (300 + dt + 0) (Ok tt))).
Proof.
  unfold prewarm_pipeline, co_try_except, co_bind, co_await, wait_for, timed_out,
    co_log.
  destruct (pm_load_pipeline w pid None) as [t [b|e]|] eqn:Hl; simpl.
  - destruct (bool_decide_reflect (t <= 300)) as [Hle|Hgt]; simpl; split.
    + intros t0 r [= <- <-] _. eexists _, _. split; [done|lia].
    + intros Hall. specialize (Hall _ _ eq_refl). lia.
    + intros t0 r [= <- <-] ?. lia.
    + intros _ dt msg ->. reflexivity.
  - destruct (bool_decide_reflect (t <= 300)) as [Hle|Hgt]; simpl; split.
    + intros t0 r [= <- <-] _.
      destruct (is_Exception e); simpl; eexists _, _; (split; [done|lia]).
    + intros Hall. specialize (Hall _ _ eq_refl). lia.
    + intros t0 r [= <- <-] ?. lia.
    + intros _ dt msg ->. reflexivity.
  - split; [intros t r H; discriminate H|].
    intros _ dt msg ->. reflexivity.
Qed.

(** A failure of the pre-warm construction is logged inside the task: the
    task never ends with an exception of class Exception. *)
Lemma prewarm_swallows_exceptions (w : World) (pid : string) (t : Z) (e : exn) :
  (prewarm_pipeline w pid).2 = Completes t (Raise e) -> is_Exception e = false.
Proof.
  unfold prewarm_pipeline, co_try_except, co_bind, co_await, wait_for, timed_out,
    co_log.
  destruct (pm_load_pipeline w pid None) as [t0 [b|e0]|]; simpl;
    try (destruct (bool_decide_reflect (t0 <= 300))); simpl;
    try (destruct (pm_load_cancelled w pid None) as [dt [b'|e']|]); simpl;
    try (destruct (is_CancelledError e')); simpl;
    repeat match goal with
           | |- context [if is_Exception ?x then _ else _] =>
               destruct (is_Exception x) eqn:?; simpl
           end;
    intros H; try discriminate H; injection H as _ <-; assumption.
Qed.

(** The pre-warm of a construction that is done within 300 seconds: its
    return ends the task, its exception is logged and ends the task. *)
Lemma prewarm_in_time (w : World) (pid : string) (t : Z) :
  t <= 300 ->
  (forall b, pm_load_pipeline w pid None = Completes t (Ok b) ->
     prewarm_pipeline w pid = ([], Completes (t + 0) (Ok tt)))
  /\ (forall e, pm_load_pipeline w pid None = Completes t (Raise e) ->
       is_Exception e = true ->
       prewarm_pipeline w pid
       = ([Log ERROR ("Error pre-warming pipeline " +:+ pid +:+ " in background: "
                      +:+ str e)],
          Completes (t + 0) (Ok tt))).
Proof.
  intros Ht. split.
  - intros b Hl.
    unfold prewarm_pipeline, co_try_except, co_bind, co_await, wait_for, co_log.
    rewrite Hl. by rewrite bool_decide_true.
  - intros e Hl He.
    unfold prewarm_pipeline, co_try_except, co_bind, co_await, wait_for, co_log.
    rewrite Hl. rewrite bool_decide_true by done. simpl. by rewrite He.
Qed.

(** The task queued by the load endpoint is the bare construction: it lasts
    as long as the construction does. *)
Lemma endpoint_task_follows_construction (w : World) (pid : string) (lp : option dict) :
  (run_coro w (load_pipeline_coro pid lp)).1 = []
  /\ (pm_load_pipeline w pid lp = Hangs ->
      (run_coro w (load_pipeline_coro pid lp)).2 = Hangs)
  /\ (forall t b, pm_load_pipeline w pid lp = Completes t (Ok b) ->
      (run_coro w (load_pipeline_coro pid lp)).2 = Completes (t + 0) (Ok tt)).
Proof.
  simpl. unfold co_bind, co_await.
  destruct (pm_load_pipeline w pid lp) as [t [b|e]|]; simpl;
    repeat split; intros; congruence.
Qed.

(** C3, at a construction that never comes back: the load endpoint queues
    the bare [pipeline_manager.load_pipeline] coroutine, which then never
    ends and is never failed, while the pre-warm of the same pipeline is
    cut at 300 seconds and logged as an error. *)
Theorem endpoint_load_has_no_deadline :
  ready (route_load_pipeline demo_load_request serving).1.2
  = [load_pipeline_coro "longlive" None]
  /\ run_coro stuck_world (load_pipeline_coro "longlive" None) = ([], Hangs)
  /\ run_coro stuck_world (prewarm_pipeline_coro "longlive")
     = ([Log ERROR "Error pre-warming pipeline longlive in background: "],
        Completes 300 (Ok tt)).
Proof. repeat split. Qed.

(** ** Startup *)

(** The statements of [lifespan] up to [yield], when every collaborator
    answers: the run, event by event. *)
Lemma lifespan_startup_run (w : World) (s : State) (ld md : Path)
    (pm : PipelineManager) (wm : WebRTCManager) :
  get_logs_dir w = Ok ld ->
  ensure_models_dir w = Ok md ->
  new_PipelineManager w = Ok pm ->
  new_WebRTCManager w = Ok wm ->
  lifespan_startup w s
  = (Ok tt,
     {| webrtc_manager := Some wm; pipeline_manager := Some pm;
        ready := ready s ++ match PIPELINE w with
                            | Some p => [prewarm_pipeline_coro p]
                            | None => []
                            end;
        running := running s |},
     (if cuda_is_available w then [] else [Log WARNING cuda_warning])
     ++ [ Called "get_logs_dir"; Returned "get_logs_dir";
          Log INFO ("Logs directory: " +:+ path_str ld);
          Called "ensure_models_dir"; Returned "ensure_models_dir";
          Log INFO ("Models directory: " +:+ path_str md);
          Called "PipelineManager"; Returned "PipelineManager";
          Log INFO "Pipeline manager initialized" ]
     ++ match PIPELINE w with
        | Some p => [TaskCreated (prewarm_pipeline_coro p)]
        | None => []
        end
     ++ [ Called "WebRTCManager"; Returned "WebRTCManager";
          Log INFO "WebRTC manager initialized" ]).
Proof.
  intros Hld Hmd Hpm Hwm. unfold lifespan_startup.
  rewrite Hld, Hmd, Hpm, Hwm. generalize (PIPELINE w) as P. intros P.
  destruct s as [wm0 pm0 rd rn]. destruct (cuda_is_available w), P as [p|];
    cbn; by rewrite ?app_nil_r.
Qed.

(** C5: when startup goes through, it queues a pre-warm task, for the
    pipeline named by PIPELINE, exactly when PIPELINE is set; the task is
    only queued, startup neither starts nor awaits it and returns the same
    whatever the construction would do.  The queued task is the pre-warm of
    that pipeline: run by the loop it is [prewarm_pipeline], it ends when
    [pipeline_manager.load_pipeline] of that pipeline does, and a failure
    of that load is what it logs; with PIPELINE unset the loop finds
    nothing to run. *)
Theorem startup_prewarms_iff_PIPELINE (w : World) (ld md : Path)
    (pm : PipelineManager) (wm : WebRTCManager) :
  get_logs_dir w = Ok ld ->
  ensure_models_dir w = Ok md ->
  new_PipelineManager w = Ok pm ->
  new_WebRTCManager w = Ok wm ->
  let run := lifespan_startup w init in
  run.1.1 = Ok tt
  /\ (forall c, TaskCreated c ∈ run.2 <->
                exists p, PIPELINE w = Some p /\ c = prewarm_pipeline_coro p)
  /\ ((exists c, TaskCreated c ∈ run.2) <-> is_Some (PIPELINE w))
  /\ ready run.1.2 = match PIPELINE w with
                     | Some p => [prewarm_pipeline_coro p]
                     | None => []
                     end
  /\ running run.1.2 = []
  /\ (forall c, TaskStarted c ∉ run.2)
  /\ (forall c b, TaskSettled c b ∉ run.2)
  /\ (forall f, lifespan_startup (with_load f w) init = run)
  /\ (forall p, PIPELINE w = Some p ->
       run_coro w (prewarm_pipeline_coro p) = prewarm_pipeline w p
       /\ (forall t b, pm_load_pipeline w p None = Completes t (Ok b) -> t <= 300 ->
            settle_events w (ready run.1.2)
            = [TaskSettled (prewarm_pipeline_coro p) (Completes (t + 0) (Ok tt))])
       /\ (forall t e, pm_load_pipeline w p None = Completes t (Raise e) -> t <= 300 ->
            is_Exception e = true ->
            settle_events w (ready run.1.2)
            = [Log ERROR ("Error pre-warming pipeline " +:+ p +:+ " in background: "
                          +:+ str e);
               TaskSettled (prewarm_pipeline_coro p) (Completes (t + 0) (Ok tt))]))
  /\ (PIPELINE w = None -> settle_events w (ready run.1.2) = []).
Proof.
  intros Hld Hmd Hpm Hwm run.
  assert (Hcreated : forall c, TaskCreated c ∈ run.2 <->
                       exists p, PIPELINE w = Some p /\ c = prewarm_pipeline_coro p).
  { intros c. unfold run. rewrite (lifespan_startup_run w init ld md pm wm) by done.
    cbn [snd]. split.
    - intros H. destruct (cuda_is_available w), (PIPELINE w) as [p|];
        trace_cases H; injection H as ->; by exists p.
    - intros (p & -> & ->). destruct (cuda_is_available w); cbn; trace_find. }
  assert (Hready : ready run.1.2 = match PIPELINE w with
                                    | Some p => [prewarm_pipeline_coro p]
                                    | None => []
                                    end).
  { unfold run. by rewrite (lifespan_startup_run w init ld md pm wm). }
  split; [|split; [exact Hcreated|split; [|split; [|split; [|split; [|split;
    [|split; [|split]]]]]]]].
  - unfold run. by rewrite (lifespan_startup_run w init ld md pm wm).
  - split.
    + intros [c Hc]. apply Hcreated in Hc as (p & Hp & _). by exists p.
    + intros [p Hp]. exists (prewarm_pipeline_coro p). apply Hcreated. by exists p.
  - unfold run. by rewrite (lifespan_startup_run w init ld md pm wm).
  - unfold run. by rewrite (lifespan_startup_run w init ld md pm wm).
  - intros c. unfold run. rewrite (lifespan_startup_run w init ld md pm wm) by done.
    cbn [snd]. intros H.
    destruct (cuda_is_available w), (PIPELINE w) as [p|]; trace_cases H.
  - intros c b. unfold run. rewrite (lifespan_startup_run w init ld md pm wm) by done.
    cbn [snd]. intros H.
    destruct (cuda_is_available w), (PIPELINE w) as [p|]; trace_cases H.
  - intros f. unfold run.
    rewrite (lifespan_startup_run w init ld md pm wm) by done.
    by rewrite (lifespan_startup_run (with_load f w) init ld md pm wm).
  - intros p Hp. rewrite Hready, Hp. split; [reflexivity|]. split.
    + intros t b Hl Ht. rewrite settle_events_cons. cbn [run_coro].
      by rewrite (proj1 (prewarm_in_time w p t Ht) b Hl).
    + intros t e Hl Ht He. rewrite settle_events_cons. cbn [run_coro].
      by rewrite (proj2 (prewarm_in_time w p t Ht) e Hl He).
  - intros Hp. by rewrite Hready, Hp.
Qed.

Lemma startup_prewarms_iff_PIPELINE_witness :
  ready (lifespan_startup demo_world init).1.2 = [prewarm_pipeline_coro "longlive"]
  /\ running (lifespan_startup demo_world init).1.2 = []
  /\ (lifespan_startup demo_world init).1.1 = Ok tt
  /\ settle_events demo_world (ready (lifespan_startup demo_world init).1.2)
     = [ Log ERROR
           ("Error pre-warming pipeline " +:+ "longlive" +:+ " in background: "
            +:+ str (Exception "RuntimeError" "CUDA out of memory"));
         TaskSettled (prewarm_pipeline_coro "longlive") (Completes (12 + 0) (Ok tt)) ].
Proof.
  destruct (startup_prewarms_iff_PIPELINE demo_world ["logs"] ["models"]
              PipelineManager_instance WebRTCManager_instance
              eq_refl eq_refl eq_refl eq_refl)
    as (Hok & _ & _ & Hready & Hrunning & _ & _ & _ & Htask & _).
  split; [exact Hready|]. split; [exact Hrunning|]. split; [exact Hok|].
  destruct (Htask "longlive" eq_refl) as (_ & _ & Hfail).
  apply (Hfail 12 _ eq_refl); [lia | reflexivity].
Defined.

(** C7: on a machine without CUDA, startup does what it does on the same
    machine with CUDA, after one more log line, the warning: same outcome,
    same globals and task queue, same events after the warning.  With the
    collaborators answering, startup returns and both managers are set. *)
Theorem startup_without_cuda_only_warns (w : World) (s : State) :
  cuda_is_available w = false ->
  let run := lifespan_startup w s in
  let run' := lifespan_startup (with_cuda true w) s in
  run.1 = run'.1
  /\ run.2 = Log WARNING cuda_warning :: run'.2
  /\ (forall ld md pm wm,
        get_logs_dir w = Ok ld -> ensure_models_dir w = Ok md ->
        new_PipelineManager w = Ok pm -> new_WebRTCManager w = Ok wm ->
        run.1.1 = Ok tt
        /\ pipeline_manager run.1.2 = Some pm
        /\ webrtc_manager run.1.2 = Some wm).
Proof.
  intros Hcuda run run'. split; [|split].
  - unfold run, run', lifespan_startup, with_cuda, PIPELINE, getenv.
    destruct w as [env cuda gl em npm nwm lp lc st ul stop ho rl fsys now].
    cbn [cuda_is_available get_logs_dir ensure_models_dir new_PipelineManager
         new_WebRTCManager environ] in *. subst cuda.
    generalize (env !! "PIPELINE") as P. intros P.
    destruct s as [wm0 pm0 rd rn].
    destruct gl, em, npm, nwm, P; reflexivity.
  - unfold run, run', lifespan_startup, with_cuda, PIPELINE, getenv.
    destruct w as [env cuda gl em npm nwm lp lc st ul stop ho rl fsys now].
    cbn [cuda_is_available get_logs_dir ensure_models_dir new_PipelineManager
         new_WebRTCManager environ] in *. subst cuda.
    generalize (env !! "PIPELINE") as P. intros P.
    destruct s as [wm0 pm0 rd rn].
    destruct gl, em, npm, nwm, P; reflexivity.
  - intros ld md pm wm Hld Hmd Hpm Hwm. unfold run.
    by rewrite (lifespan_startup_run w s ld md pm wm).
Qed.

Lemma startup_without_cuda_only_warns_witness :
  (lifespan_startup demo_world init).1.1 = Ok tt
  /\ (lifespan_startup demo_world init).2
     = Log WARNING cuda_warning :: (lifespan_startup (with_cuda true demo_world) init).2.
Proof.
  destruct (startup_without_cuda_only_warns demo_world init eq_refl)
    as (_ & Hev & Hok).
  split; [|exact Hev].
  exact (proj1 (Hok ["logs"] ["models"] PipelineManager_instance
                  WebRTCManager_instance eq_refl eq_refl eq_refl eq_refl)).
Defined.

(** ** Shutdown *)

(** In a trace that opens with [before] and then [r], an event that is
    neither in [before] nor [r] can only occur after [r]. *)
Lemma occurs_after (before : list event) (r x : event) (rest pre post : list event) :
  x ∉ before ->
  x <> r ->
  before ++ r :: rest = pre ++ x :: post ->
  r ∈ pre.
Proof.
  revert pre. induction before as [|a before IH]; intros pre Hnot Hne Heq.
  - destruct pre as [|p pre]; simpl in Heq.
    + congruence.
    + injection Heq as -> _. apply list_elem_of_here.
  - destruct pre as [|p pre]; simpl in Heq.
    + injection Heq as -> _. exfalso. apply Hnot, list_elem_of_here.
    + injection Heq as -> Heq. apply list_elem_of_further.
      apply IH; [|done|done]. intros Hin. apply Hnot. by apply list_elem_of_further.
Qed.

(** The trace of shutdown, by cases on the session manager and its stop. *)
Lemma lifespan_shutdown_trace (w : World) (s : State) :
  (lifespan_shutdown w s).2
  = match webrtc_manager s with
    | Some _ =>
        [ Log INFO "Shutting down WebRTC manager..."; Called "webrtc_manager.stop" ]
        ++ (TaskStarted <$> ready s)
        ++ match wm_stop w with
           | Ok _ =>
               Returned "webrtc_manager.stop"
               :: Log INFO "WebRTC manager shutdown complete"
               :: unload_events w (pipeline_manager s)
           | Raise e => [ Raised "webrtc_manager.stop" e ]
           end
    | None => unload_events w (pipeline_manager s)
    end.
Proof.
  unfold lifespan_shutdown, unload_events.
  destruct s as [[wm|] [pm|] rd rn];
    destruct (wm_stop w) as [[]|e1] eqn:Hstop;
    destruct (pm_unload_pipeline w) as [[]|e2] eqn:Hunload;
    cbn; rewrite ?Hstop; cbn; rewrite ?Hunload; cbn;
    by rewrite ?app_nil_r, <- ?app_assoc.
Qed.

(** C8: at shutdown the session manager's [stop] is called when the session
    manager is set; the pipeline manager's [unload_pipeline] is called when
    the pipeline manager is set and [stop], if there was one to call, has
    returned; and whenever the unload is called with a session manager set,
    the return of [stop] comes before it in the trace. *)
Theorem shutdown_stops_sessions_then_unloads (w : World) (s : State) :
  let evs := (lifespan_shutdown w s).2 in
  (is_Some (webrtc_manager s) -> Called "webrtc_manager.stop" ∈ evs)
  /\ (is_Some (pipeline_manager s) ->
      webrtc_manager s = None \/ wm_stop w = Ok tt ->
      Called "pipeline_manager.unload_pipeline" ∈ evs)
  /\ (forall pre post,
        is_Some (webrtc_manager s) ->
        evs = pre ++ Called "pipeline_manager.unload_pipeline" :: post ->
        Returned "webrtc_manager.stop" ∈ pre).
Proof.
  intros evs. unfold evs. rewrite lifespan_shutdown_trace. split; [|split].
  - intros [wm ->]. trace_find.
  - intros [pm ->] [-> | Hstop].
    + cbn. trace_find.
    + rewrite Hstop. destruct (webrtc_manager s); cbn; trace_find.
  - intros pre post [wm ->] Heq.
    destruct (wm_stop w) as [u|e].
    + rewrite app_assoc in Heq.
      refine (occurs_after _ _ _ _ _ _ _ _ Heq); [|discriminate].
      intros H. apply elem_of_app in H as [H|H]; [trace_cases H|].
      apply list_elem_of_fmap in H as (c & H & _). discriminate.
    + exfalso.
      assert (Hin : Called "pipeline_manager.unload_pipeline"
                    ∈ [Log INFO "Shutting down WebRTC manager...";
                       Called "webrtc_manager.stop"]
                      ++ (TaskStarted <$> ready s)
                      ++ [Raised "webrtc_manager.stop" e]).
      { rewrite Heq. apply elem_of_app. right. apply list_elem_of_here. }
      apply elem_of_app in Hin as [H|H]; [trace_cases H|].
      apply elem_of_app in H as [H|H]; [|trace_cases H].
      apply list_elem_of_fmap in H as (c & H & _). discriminate.
Qed.

Lemma shutdown_stops_sessions_then_unloads_witness :
  Called "webrtc_manager.stop" ∈ (lifespan_shutdown demo_world serving).2
  /\ Called "pipeline_manager.unload_pipeline" ∈ (lifespan_shutdown demo_world serving).2
  /\ Returned "webrtc_manager.stop"
     ∈ [ Log INFO "Shutting down WebRTC manager..."; Called "webrtc_manager.stop";
         Returned "webrtc_manager.stop"; Log INFO "WebRTC manager shutdown complete";
         Log INFO "Shutting down pipeline manager..." ].
Proof.
  destruct (shutdown_stops_sessions_then_unloads demo_world serving)
    as (Hstop & Hunload & Horder).
  split; [|split].
  - apply Hstop. by eexists.
  - apply Hunload; [by eexists | by right].
  - eapply Horder; [by eexists | reflexivity].
Defined.

(** ** The log download *)

(** C10: when there is no most recent log file, or the path it names does
    not exist, [get_current_logs] raises the 404 it built, unchanged by its
    own [except] clauses; when the path names a text file, it returns the
    whole text as text/plain with an attachment disposition whose file name
    is the log's with ".log" replaced by ".txt". *)
Theorem get_current_logs_404_or_contents (w : World) (s : State) :
  (get_most_recent_log_file w = Ok None
   \/ (exists p, get_most_recent_log_file w = Ok (Some p) /\ fs w !! p = None) ->
   (get_current_logs w s).1.1
   = Raise (HTTPException 404
              "Log file not found. The application may not have logged anything yet.")
   /\ http_status (get_current_logs w s).1.1 = 404)
  /\ (forall p text,
        get_most_recent_log_file w = Ok (Some p) ->
        fs w !! p = Some (RegularFile text) ->
        (get_current_logs w s).1.1
        = Ok {| content := text;
                media_type := "text/plain";
                headers :=
                  [ ("Content-Disposition",
                     "attachment; filename=" +:+ dquote
                     +:+ replace (path_name p) ".log" ".txt" +:+ dquote) ] |}).
Proof.
  split.
  - intros [Hnone | (p & Hp & Hfs)];
      unfold get_current_logs, try_except, bind, call, emit, ret, raise,
        path_exists; simpl.
    + by rewrite Hnone.
    + rewrite Hp. simpl. by rewrite Hfs.
  - intros p text Hp Hfs.
    unfold get_current_logs, try_except, bind, call, emit, ret, raise, lift,
      path_exists, read_text; simpl.
    rewrite Hp. simpl. by rewrite Hfs.
Qed.

Lemma get_current_logs_404_or_contents_witness :
  (get_current_logs demo_world serving).1.1
  = Ok {| content := "started";
          media_type := "text/plain";
          headers :=
            [ ("Content-Disposition",
               "attachment; filename=" +:+ dquote +:+ "scope-logs-1.txt" +:+ dquote) ] |}.
Proof.
  exact (proj2 (get_current_logs_404_or_contents demo_world serving)
           ["logs"; "scope-logs-1.log"] "started" eq_refl eq_refl).
Defined.

(** ** Whitespace, stems and replacements *)

Lemma lstrip_all_space (l t : string) :
  all_space l = true -> lstrip (l +:+ t) = lstrip t.
Proof.
  induction l as [|c l IH]; simpl; [done|].
  intros [Hc Hl]%andb_prop. rewrite Hc. by apply IH.
Qed.

Lemma rstrip_all_space (r : string) : all_space r = true -> rstrip r = EmptyString.
Proof.
  induction r as [|c r IH]; simpl; [done|].
  intros [Hc Hr]%andb_prop. rewrite (IH Hr). by rewrite Hc.
Qed.

Lemma rstrip_no_space (h r : string) :
  no_space h = true -> all_space r = true -> rstrip (h +:+ r) = h.
Proof.
  intros Hh Hr. induction h as [|c h IH]; simpl.
  - by apply rstrip_all_space.
  - simpl in Hh. apply andb_prop in Hh as [Hc Hh]. rewrite (IH Hh).
    destruct h; [|done]. by destruct (is_space c).
Qed.

Lemma lstrip_only_space (r : string) : all_space r = true -> lstrip r = EmptyString.
Proof.
  induction r as [|c r IH]; simpl; [done|].
  intros [Hc Hr]%andb_prop. rewrite Hc. by apply IH.
Qed.

(** [strip] removes the whitespace around a text that has none inside. *)
Lemma strip_surrounding_whitespace (l h r : string) :
  all_space l = true ->
  no_space h = true ->
  all_space r = true ->
  strip (l +:+ h +:+ r) = h.
Proof.
  intros Hl Hh Hr. unfold strip. rewrite (lstrip_all_space _ _ Hl).
  destruct h as [|c h].
  - change (EmptyString +:+ r) with r. by rewrite (lstrip_only_space _ Hr).
  - pose proof Hh as Hh'. simpl in Hh'. apply andb_prop in Hh' as [Hc _].
    apply negb_true_iff in Hc.
    change (String c h +:+ r) with (String c (h +:+ r)).
    cbn [lstrip]. rewrite Hc.
    change (String c (h +:+ r)) with (String c h +:+ r).
    by apply rstrip_no_space.
Qed.

(** ** The version banner *)

(** X1: when git exits with code 0, [get_git_commit_hash] returns what it
    printed without the whitespace around it (the newline after the short
    hash, blanks, tabs), and does nothing else. *)
Theorem git_hash_is_stripped (h : Host) (l hash r : string) :
  git_rev_parse h = Ok {| returncode := 0; stdout := l +:+ hash +:+ r |} ->
  all_space l = true ->
  no_space hash = true ->
  all_space r = true ->
  get_git_commit_hash h = ([], Ok hash).
Proof.
  intros Hgit Hl Hh Hr. unfold get_git_commit_hash, p_try, p_bind, p_lift.
  rewrite Hgit. cbn -[strip String.append].
  by rewrite strip_surrounding_whitespace.
Qed.

Lemma git_hash_is_stripped_witness :
  get_git_commit_hash demo_host = ([], Ok "abc1234").
Proof.
  apply (git_hash_is_stripped demo_host EmptyString "abc1234"
           (String "010"%char EmptyString)); reflexivity.
Defined.

(** X2: [get_git_commit_hash] never raises an exception of class Exception
    and performs no action; it returns git's stripped output only when git
    ran and exited with code 0, and a text starting with "unknown" in every
    other case: a non-zero exit code, a timeout, git missing, any other
    error. *)
Theorem git_hash_or_unknown (h : Host) :
  (get_git_commit_hash h).1 = []
  /\ (forall e, (get_git_commit_hash h).2 = Raise e -> is_Exception e = false)
  /\ (forall v, (get_git_commit_hash h).2 = Ok v ->
        (exists cp, git_rev_parse h = Ok cp /\ returncode cp = 0
                    /\ v = strip (stdout cp))
        \/ String.prefix "unknown" v = true)
  /\ (forall e, git_rev_parse h = Raise e -> is_Exception e = true ->
        exists v, (get_git_commit_hash h).2 = Ok v /\ String.prefix "unknown" v = true).
Proof.
  unfold get_git_commit_hash, p_try, p_bind, p_lift.
  destruct (git_rev_parse h) as [cp|e] eqn:Hgit.
  - cbn. case_bool_decide as Hrc; cbn.
    + repeat split; try done. intros v [= <-]. left. by exists cp.
    + repeat split; try done. intros v [= <-]. by right.
  - cbn. destruct (raised_as ["TimeoutExpired"; "CalledProcessError"] e) eqn:H1; cbn.
    { repeat split; try done.
      - intros v [= <-]. by right.
      - intros e' [= <-] _. by eexists. }
    destruct (raised_as ["FileNotFoundError"] e) eqn:H2; cbn.
    { repeat split; try done.
      - intros v [= <-]. by right.
      - intros e' [= <-] _. by eexists. }
    destruct (is_Exception e) eqn:H3; cbn.
    { repeat split; try done.
      - intros v [= <-]. by right.
      - intros e' [= <-] _. by eexists. }
    repeat split; try done.
    + intros e' [= <-]. done.
    + intros e' [= <-] Hex. congruence.
Qed.

(** X3: asked for the version, [main] prints and leaves: every action it
    performs is a print, and it ends with an exception outside Exception
    (SystemExit with code 0 unless something of that kind came earlier); it
    mounts nothing and starts no server. *)
Theorem main_version_only_prints (args : Args) (d : Disk) (h : Host) :
  version args = true ->
  (forall a, a ∈ (main args d h).1 -> exists line, a = Print line)
  /\ (exists e, (main args d h).2 = Raise e /\ is_Exception e = false)
  /\ ((forall e, pkg_version h = Raise e -> is_Exception e = true) ->
      (forall e, git_rev_parse h = Raise e -> is_Exception e = true) ->
      (main args d h).2 = Raise (BaseException "SystemExit" "0")
      /\ length (main args d h).1 = 2%nat).
Proof.
  intros Hv. unfold main. rewrite Hv.
  destruct (git_hash_or_unknown h) as (Hact & Hraise & _ & _).
  unfold print_version_info, p_bind, p_try, p_lift, act, p_raise.
  destruct (get_git_commit_hash h) as [gl [g|ge]] eqn:Hg; simpl in Hact; subst gl.
  - destruct (pkg_version h) as [v|e] eqn:Hpv; cbn.
    + split; [|split].
      * intros a Ha. trace_cases Ha; subst; eauto.
      * by eexists.
      * done.
    + destruct (is_Exception e) eqn:He; cbn.
      * split; [|split].
        -- intros a Ha. trace_cases Ha; subst; eauto.
        -- by eexists.
        -- done.
      * split; [|split].
        -- intros a Ha. trace_cases Ha.
        -- by exists e.
        -- intros Hp _. specialize (Hp _ eq_refl). congruence.
  - specialize (Hraise _ eq_refl).
    destruct (pkg_version h) as [v|e] eqn:Hpv; cbn.
    + split; [|split].
      * intros a Ha. trace_cases Ha.
      * by exists ge.
      * intros _ Hgit. exfalso.
        unfold get_git_commit_hash, p_try, p_bind, p_lift in Hg.
        destruct (git_rev_parse h) as [cp|e'] eqn:Hgr.
        -- cbn in Hg. by case_bool_decide.
        -- specialize (Hgit _ eq_refl). cbn in Hg.
           destruct (raised_as ["TimeoutExpired"; "CalledProcessError"] e'); [done|].
           destruct (raised_as ["FileNotFoundError"] e'); [done|].
           cbn in Hg. rewrite Hgit in Hg. done.
    + destruct (is_Exception e) eqn:He; cbn.
      * split; [|split].
        -- intros a Ha. trace_cases Ha.
        -- by exists ge.
        -- intros _ Hgit. exfalso.
           unfold get_git_commit_hash, p_try, p_bind, p_lift in Hg.
           destruct (git_rev_parse h) as [cp|e'] eqn:Hgr.
           ++ cbn in Hg. by case_bool_decide.
           ++ specialize (Hgit _ eq_refl). cbn in Hg.
              destruct (raised_as ["TimeoutExpired"; "CalledProcessError"] e'); [done|].
              destruct (raised_as ["FileNotFoundError"] e'); [done|].
              cbn in Hg. rewrite Hgit in Hg. done.
      * split; [|split].
        -- intros a Ha. trace_cases Ha.
        -- by exists e.
        -- intros Hp _. specialize (Hp _ eq_refl). congruence.
Qed.

Lemma main_version_only_prints_witness :
  (main {| version := true; reload := false; host := "127.0.0.1"; port := 8000;
           no_browser := false |} demo_disk demo_host).2
  = Raise (BaseException "SystemExit" "0").
Proof.
  destruct (main_version_only_prints
              {| version := true; reload := false; host := "127.0.0.1"; port := 8000;
                 no_browser := false |} demo_disk demo_host eq_refl)
    as (_ & _ & H).
  apply H; intros e He; discriminate He.
Defined.

(** ** The command line *)

(** X4: past the version switch and the static files, [main] runs the
    server of production mode exactly when the directory it looks at
    exists, and the development server otherwise; the browser thread is
    started exactly in production mode without --no-browser; Ctrl+C ends
    production mode quietly and comes out of development mode as the
    exception it is. *)
Theorem main_modes (args : Args) (d : Disk) (h : Host) :
  version args = false ->
  (configure_static_files d).2 = Ok tt ->
  let production := disk_exists d (frontend_dist_main d) in
  let acts := (main args d h).1 in
  ((exists hh pp, StartBrowserThread hh pp ∈ acts) <->
     production = true /\ no_browser args = false)
  /\ ((exists hh pp rr, ServerRun hh pp rr ∈ acts) <-> production = true)
  /\ ((exists hh pp rr, UvicornRun hh pp rr ∈ acts) <-> production = false)
  /\ (production = true ->
      forall msg, server_run h = Raise (BaseException "KeyboardInterrupt" msg) ->
      (main args d h).2 = Ok tt)
  /\ (production = false -> (main args d h).2 = uvicorn_run h).
Proof.
  intros Hv Hcfg production acts. unfold acts, main. rewrite Hv.
  fold production. unfold configure_static_files in *.
  destruct (disk_exists d (frontend_dist d)); [destruct (disk_is_dir d _)|];
    cbn in Hcfg; try discriminate Hcfg;
    destruct production, (no_browser args);
    cbn -[is_KeyboardInterrupt];
    (destruct (server_run h) as [[]|e] eqn:Hrun || idtac);
    cbn -[is_KeyboardInterrupt];
    try (destruct (is_KeyboardInterrupt e) eqn:Hki);
    cbn -[is_KeyboardInterrupt];
    (split; [|split; [|split; [|split]]]);
    try (split; [intros (hh & pp & Hin); trace_cases Hin
                | intros [? ?]; try discriminate; eexists _, _; trace_find]);
    try (split; [intros (hh & pp & rr & Hin); trace_cases Hin
                | intros ?; try discriminate; eexists _, _, _; trace_find]);
    try done;
    try (intros _ msg [= ->]; cbn in Hki; done);
    try (by destruct (uvicorn_run h)).
Qed.

Lemma main_modes_witness :
  (main demo_args demo_disk demo_host).2 = uvicorn_run demo_host.
Proof.
  destruct (main_modes demo_args demo_disk demo_host eq_refl eq_refl)
    as (_ & _ & _ & _ & Hdev).
  by apply Hdev.
Defined.

(** X5: the directory whose existence [main] takes as production mode, three
    levels above the module file, is the directory the static routes serve
    from, four levels above it, only when the module file sits at most three
    levels deep; in every deeper layout the two differ. *)
Theorem main_looks_at_another_dist (d : Disk) :
  frontend_dist_main d = frontend_dist d <-> (length (module_file d) <= 3)%nat.
Proof.
  unfold frontend_dist_main, frontend_dist, parent.
  generalize (module_file d) as l. intros l. split.
  - intros Heq. apply (f_equal length) in Heq.
    rewrite !length_app, !removelast_firstn_len, !length_take in Heq.
    simpl in Heq. lia.
  - intros Hlen. destruct l as [|a [|b [|c [|e l]]]]; simpl in *; try done. lia.
Qed.

(** ** Opening the browser *)

Lemma wait_started_sleeps (started : nat -> bool) (k n fuel : nat) :
  started (n + k)%nat = true ->
  (forall j, (j < k)%nat -> started (n + j)%nat = false) ->
  (k < fuel)%nat ->
  wait_started started n fuel = Some (replicate k Sleep).
Proof.
  revert n fuel. induction k as [|k IH]; intros n fuel Hk Hbefore Hfuel.
  - destruct fuel as [|fuel]; [lia|]. simpl.
    rewrite Nat.add_0_r in Hk. by rewrite Hk.
  - destruct fuel as [|fuel]; [lia|]. simpl.
    assert (Hn : started n = false).
    { rewrite <- (Nat.add_0_r n). apply Hbefore. lia. }
    rewrite Hn. rewrite (IH (S n) fuel).
    + done.
    + by replace (S n + k)%nat with (n + S k)%nat by lia.
    + intros j Hj. replace (S n + j)%nat with (n + S j)%nat by lia.
      apply Hbefore. lia.
    + lia.
Qed.

(** X6: once the server is seen started, at the k-th look,
    [open_browser_when_ready] has slept k times, tries the browser once and
    writes exactly one log line, which carries the URL: "Opened browser"
    when [webbrowser.open] returned True, "UI is available" when it
    returned False or raised; it then returns. *)
Theorem browser_announced_once (fuel k : nat) (started : nat -> bool)
    (webbrowser_open : result bool) (host : string) (port : Z) :
  started k = true ->
  (forall j, (j < k)%nat -> started j = false) ->
  (k < fuel)%nat ->
  (forall e, webbrowser_open = Raise e -> is_Exception e = true) ->
  let url := browser_url host port in
  open_browser_when_ready fuel started webbrowser_open host port
  = Some (replicate k Sleep
          ++ [ OpenBrowser url;
               Info (match webbrowser_open with
                     | Ok true => "🌐 Opened browser at "
                     | _ => "🌐 UI is available at: "
                     end +:+ url) ],
          Ok tt).
Proof.
  intros Hk Hbefore Hfuel Hexc url. unfold open_browser_when_ready.
  rewrite (wait_started_sleeps started k 0 fuel); [|done|done|done].
  fold url. destruct webbrowser_open as [[|]|e]; cbn.
  - done.
  - done.
  - rewrite (Hexc e eq_refl). cbn. done.
Qed.

Lemma browser_announced_once_witness :
  open_browser_when_ready 10 (fun n => (3 <=? n)%nat)
    (Raise (Exception "Error" "no display")) "0.0.0.0" 8000
  = Some ([ Sleep; Sleep; Sleep; OpenBrowser "http://localhost:8000";
            Info "🌐 UI is available at: http://localhost:8000" ],
          Ok tt).
Proof.
  apply (browser_announced_once 10 3 (fun n => (3 <=? n)%nat)
           (Raise (Exception "Error" "no display")) "0.0.0.0" 8000).
  - reflexivity.
  - intros j Hj. apply Nat.leb_gt. exact Hj.
  - lia.
  - intros e [= <-]. reflexivity.
Defined.

(** ** Static routes *)





(** ** The catch-all clause *)

(** Behind [except Exception as e: ... raise HTTPException(500, str(e))]
    no HTTPException other than a 500 leaves the [try]. *)
Lemma catch_all_only_500 {A} (body : M A) (prefix : string) (s : State)
    (c : Z) (detail : string) :
  (try_except body
     [ (is_Exception,
        fun e => logger_error (prefix +:+ str e);;; raise (HTTPException 500 (str e))) ]
     s).1.1 = Raise (HTTPException c detail) ->
  c = 500.
Proof.
  unfold try_except. destruct (body s) as [[[a|e] s1] l1]; cbn; [discriminate|].
  destruct e; cbn; intros H; by injection H.
Qed.

(** X10: the handlers whose [try] ends in the catch-all clause never answer
    with a client error: whatever the request, the state and the world, an
    HTTPException that leaves the offer, load, status, model-status,
    download or LoRA handler has status 500, also when the handler or a
    collaborator raised it with another status. *)
Theorem guarded_handlers_raise_only_500 (w : World) (d : Disk) (s : State)
    (c : Z) (detail : string) :
  (forall request wm pm,
     (handle_webrtc_offer w request wm pm s).1.1 = Raise (HTTPException c detail) -> c = 500)
  /\ (forall request pm,
        (load_pipeline request pm s).1.1 = Raise (HTTPException c detail) -> c = 500)
  /\ (forall (validate : dict -> result dict) pm,
        (get_pipeline_status w validate pm s).1.1 = Raise (HTTPException c detail) -> c = 500)
  /\ (forall downloaded,
        (get_model_status downloaded s).1.1 = Raise (HTTPException c detail) -> c = 500)
  /\ (forall thread_start pipeline_id,
        (download_pipeline_models thread_start pipeline_id s).1.1
        = Raise (HTTPException c detail) -> c = 500)
  /\ ((list_lora_files d s).1.1 = Raise (HTTPException c detail) -> c = 500).
Proof.
  repeat split; intros; eapply catch_all_only_500; eassumption.
Qed.

(** X11: the load endpoint acknowledges exactly when the pipeline manager
    is set; before that it answers 500 for the missing attribute, logs the
    error, and leaves the globals and both task queues as they were. *)
Theorem load_pipeline_needs_manager (request : PipelineLoadRequest) (s : State) :
  ((route_load_pipeline request s).1.1 = Ok load_ack <-> is_Some (pipeline_manager s))
  /\ (pipeline_manager s = None ->
      route_load_pipeline request s
      = (Raise (HTTPException 500 "'NoneType' object has no attribute 'load_pipeline'"),
         s,
         [Log ERROR "Error loading pipeline: 'NoneType' object has no attribute 'load_pipeline'"])).
Proof.
  assert (Hnone : pipeline_manager s = None ->
      route_load_pipeline request s
      = (Raise (HTTPException 500 "'NoneType' object has no attribute 'load_pipeline'"),
         s,
         [Log ERROR "Error loading pipeline: 'NoneType' object has no attribute 'load_pipeline'"])).
  { intros Hpm. destruct s as [wm0 pm0 rd rn]. simpl in Hpm. subst pm0. reflexivity. }
  split; [|exact Hnone]. split.
  - intros Hok. destruct (pipeline_manager s) eqn:Hpm; [by eexists|].
    rewrite (Hnone eq_refl) in Hok. discriminate Hok.
  - intros [pm Hpm]. by rewrite (route_load_pipeline_run request s pm Hpm).
Qed.

(** X12: the download endpoint starts its thread exactly for a non-empty
    pipeline id.  An empty id never reaches the thread and is answered
    with 500, the 400 raised for it being caught by the handler's own
    catch-all; a non-empty id whose thread starts is answered with the
    "started" message, before and whatever the download does. *)
Theorem download_starts_thread_for_nonempty_id (thread_start : result unit)
    (pipeline_id : string) (s : State) :
  let run := download_pipeline_models thread_start pipeline_id s in
  (Called "threading.Thread.start" ∈ run.2 <-> pipeline_id <> EmptyString)
  /\ (pipeline_id = EmptyString ->
      run.1.1 = Raise (HTTPException 500 "400: pipeline_id is required"))
  /\ (pipeline_id <> EmptyString -> thread_start = Ok tt ->
      run.1.1 = Ok {[ "message" := "Model download started for " +:+ pipeline_id ]})
  /\ run.1.2 = s.
Proof.
  intros run. unfold run, download_pipeline_models, try_except, bind, call, emit,
    ret, raise.
  case_bool_decide as Hid; cbn.
  - destruct thread_start as [[]|e]; cbn.
    + repeat split; try done. intros _. trace_find.
    + destruct (is_Exception e); cbn; repeat split; try done;
        intros _; trace_find.
  - subst pipeline_id. cbn. repeat split; try done.
    intros H. trace_cases H.
Qed.

Lemma download_starts_thread_for_nonempty_id_witness :
  (download_pipeline_models (Ok tt) "longlive" serving).1.1
  = Ok {[ "message" := "Model download started for longlive" ]}.
Proof.
  destruct (download_starts_thread_for_nonempty_id (Ok tt) "longlive" serving)
    as (_ & _ & H & _).
  by apply H.
Defined.

(** ** More of the log download *)

Lemma replace_from_no_occurrence (old new s : string) :
  contains old s = false -> replace_from O old new s = s.
Proof.
  induction s as [|c s IH]; intros H; [done|].
  rewrite contains_unfold in H. cbn [replace_from].
  destruct (String.prefix old (String c s)); [discriminate|].
  by rewrite IH.
Qed.

Lemma replace_log_suffix (base rest new : string) :
  rfind_dot base = None ->
  replace_from O ".log" new (base +:+ ".log" +:+ rest)
  = base +:+ new +:+ replace_from O ".log" new rest.
Proof.
  induction base as [|c base IH]; intros Hdot.
  - by destruct rest.
  - simpl in Hdot. destruct (rfind_dot base) eqn:Hb; [discriminate|].
    destruct (Ascii.eqb c ".") eqn:Hc; [discriminate|].
    change (String c base +:+ ".log" +:+ rest)
      with (String c (base +:+ ".log" +:+ rest)).
    cbn [replace_from String.prefix].
    destruct (Ascii.ascii_dec "." c) as [<-|_]; [discriminate|].
    by rewrite IH.
Qed.

(** X13: the file name offered for download is the log's name with its
    ".log" turned into ".txt": for a name made of a dot-free base, ".log"
    and a rest without ".log" (nothing, or the ".1" of a rotated file), the
    Content-Disposition header names base, ".txt" and that rest. *)
Theorem log_download_is_named_txt (w : World) (s : State) (p : Path)
    (text base rest : string) :
  get_most_recent_log_file w = Ok (Some p) ->
  fs w !! p = Some (RegularFile text) ->
  path_name p = base +:+ ".log" +:+ rest ->
  rfind_dot base = None ->
  contains ".log" rest = false ->
  headers <$> (match (get_current_logs w s).1.1 with Ok r => Some r | Raise _ => None end)
  = Some [ ("Content-Disposition",
            "attachment; filename=" +:+ dquote +:+ (base +:+ ".txt" +:+ rest) +:+ dquote) ].
Proof.
  intros Hp Hfs Hname Hbase Hrest.
  unfold get_current_logs, try_except, bind, call, emit, ret, raise, lift,
    path_exists, read_text; simpl.
  rewrite Hp. simpl. rewrite Hfs. simpl. unfold replace. rewrite Hname.
  rewrite (replace_log_suffix _ _ _ Hbase).
  by rewrite (replace_from_no_occurrence _ _ _ Hrest).
Qed.

Lemma log_download_is_named_txt_witness :
  headers <$> (match (get_current_logs demo_world serving).1.1 with
               | Ok r => Some r
               | Raise _ => None
               end)
  = Some [ ("Content-Disposition",
            "attachment; filename=" +:+ dquote
            +:+ ("scope-logs-1" +:+ ".txt" +:+ EmptyString) +:+ dquote) ].
Proof.
  apply (log_download_is_named_txt demo_world serving ["logs"; "scope-logs-1.log"]
           "started" "scope-logs-1" EmptyString); reflexivity.
Defined.

(** X14: a log file that exists and cannot be read is a server error:
    whatever Exception [read_text] raises (other than an HTTPException)
    comes out as a 500 carrying its text and is logged once as an error,
    while the 404 for a missing file is not logged at all. *)
Theorem log_read_failure_is_500 (w : World) (s : State) :
  (forall p e,
     get_most_recent_log_file w = Ok (Some p) ->
     fs w !! p = Some (Unreadable e) ->
     is_Exception e = true ->
     is_HTTPException e = false ->
     get_current_logs w s
     = (Raise (HTTPException 500 (str e)), s,
        [ Called "get_most_recent_log_file"; Returned "get_most_recent_log_file";
          Log ERROR ("Error retrieving log file: " +:+ str e) ]))
  /\ (http_status (get_current_logs w s).1.1 = 404 ->
      forall lvl msg, Log lvl msg ∉ (get_current_logs w s).2).
Proof.
  split.
  - intros p e Hp Hfs Hexc Hhttp.
    unfold get_current_logs, try_except, bind, call, emit, ret, raise, lift,
      path_exists, read_text; simpl.
    rewrite Hp. simpl. rewrite Hfs. simpl. rewrite Hhttp, Hexc. simpl.
    by destruct s.
  - unfold get_current_logs, try_except, bind, call, emit, ret, raise, lift,
      path_exists, read_text; simpl.
    destruct (get_most_recent_log_file w) as [[p|]|e]; simpl.
    + destruct (fs w !! p) as [[text|e]|]; simpl.
      * discriminate.
      * destruct (is_HTTPException e) eqn:Hh; simpl.
        -- intros _ lvl msg H. trace_cases H.
        -- destruct (is_Exception e) eqn:He; simpl; [discriminate|].
           destruct e; simpl in *; try discriminate.
      * intros _ lvl msg H. trace_cases H.
    + intros _ lvl msg H. trace_cases H.
    + destruct (is_HTTPException e) eqn:Hh; simpl.
      * intros _ lvl msg H. trace_cases H.
      * destruct (is_Exception e) eqn:He; simpl; [discriminate|].
        destruct e; simpl in *; try discriminate.
Qed.

Lemma log_read_failure_is_500_witness :
  get_current_logs unreadable_world serving
  = (Raise (HTTPException 500 "invalid start byte"), serving,
     [ Called "get_most_recent_log_file"; Returned "get_most_recent_log_file";
       Log ERROR "Error retrieving log file: invalid start byte" ]).
Proof.
  apply (proj1 (log_read_failure_is_500 unreadable_world serving)
           ["logs"; "scope-logs-1.log"]
           (Exception "UnicodeDecodeError" "invalid start byte"));
    reflexivity.
Defined.

(** ** Failures at startup and shutdown *)

(** X15: startup is not atomic.  When [PipelineManager()] raises, startup
    raises the same exception with the globals and the task queue
    untouched; when [WebRTCManager()] raises after it, startup raises with
    the pipeline manager already set, the session manager still unset and
    the pre-warm task of PIPELINE already queued. *)
Theorem startup_failure_leaves_partial_state (w : World) (s : State) (ld md : Path) :
  get_logs_dir w = Ok ld ->
  ensure_models_dir w = Ok md ->
  (forall e, new_PipelineManager w = Raise e ->
     (lifespan_startup w s).1 = (Raise e, s)
     /\ forall c, TaskCreated c ∉ (lifespan_startup w s).2)
  /\ (forall pm e, new_PipelineManager w = Ok pm -> new_WebRTCManager w = Raise e ->
       (lifespan_startup w s).1.1 = Raise e
       /\ pipeline_manager (lifespan_startup w s).1.2 = Some pm
       /\ webrtc_manager (lifespan_startup w s).1.2 = webrtc_manager s
       /\ ready (lifespan_startup w s).1.2
          = ready s ++ match PIPELINE w with
                       | Some p => [prewarm_pipeline_coro p]
                       | None => []
                       end).
Proof.
  intros Hld Hmd. unfold lifespan_startup. rewrite Hld, Hmd.
  generalize (PIPELINE w) as P. intros P. split.
  - intros e Hpm. rewrite Hpm. destruct s as [wm0 pm0 rd rn].
    destruct (cuda_is_available w); cbn; (split; [done|]);
      intros c H; trace_cases H.
  - intros pm e Hpm Hwm. rewrite Hpm, Hwm. destruct s as [wm0 pm0 rd rn].
    destruct (cuda_is_available w), P as [p|]; cbn; by rewrite ?app_nil_r.
Qed.

Lemma startup_failure_leaves_partial_state_witness :
  (lifespan_startup failing_stop_world init).1.1
  = Raise (Exception "OSError" "no network interface")
  /\ ready (lifespan_startup failing_stop_world init).1.2
     = [prewarm_pipeline_coro "longlive"].
Proof.
  destruct (startup_failure_leaves_partial_state failing_stop_world init
              ["logs"] ["models"] eq_refl eq_refl) as [_ H].
  destruct (H PipelineManager_instance _ eq_refl eq_refl) as (Hr & _ & _ & Hq).
  split; [exact Hr | exact Hq].
Defined.

(** X16: when the session manager's [stop] raises at shutdown, shutdown
    raises the same exception and the pipeline is never unloaded:
    [unload_pipeline] is not called, whether or not a pipeline manager is
    set. *)
Theorem shutdown_failing_stop_skips_unload (w : World) (s : State)
    (wm : WebRTCManager) (e : exn) :
  webrtc_manager s = Some wm ->
  wm_stop w = Raise e ->
  (lifespan_shutdown w s).1.1 = Raise e
  /\ Raised "webrtc_manager.stop" e ∈ (lifespan_shutdown w s).2
  /\ Called "pipeline_manager.unload_pipeline" ∉ (lifespan_shutdown w s).2.
Proof.
  intros Hwm Hstop. split; [|split].
  - unfold lifespan_shutdown. destruct s as [wm0 pm0 rd rn]. simpl in Hwm.
    subst wm0. cbn. by rewrite Hstop.
  - rewrite lifespan_shutdown_trace, Hwm, Hstop. trace_find.
  - rewrite lifespan_shutdown_trace, Hwm, Hstop. intros H.
    apply elem_of_app in H as [H|H]; [trace_cases H|].
    apply elem_of_app in H as [H|H]; [|trace_cases H].
    apply list_elem_of_fmap in H as (c & H & _). discriminate.
Qed.

Lemma shutdown_failing_stop_skips_unload_witness :
  (lifespan_shutdown failing_stop_world serving).1.1
  = Raise (Exception "RuntimeError" "event loop is closed").
Proof.
  exact (proj1 (shutdown_failing_stop_skips_unload failing_stop_world serving
                  WebRTCManager_instance _ eq_refl eq_refl)).
Defined.

(** ** The pre-warm task *)

(** X17: the pre-warm task never ends with an exception of class
    Exception.  When the construction is done within 300 seconds the task
    ends with it, logging nothing if it returned and one error naming the
    pipeline and the exception if it raised.  When it is not, the
    construction is cancelled and awaited: the task ends when the
    construction does, with one error for the timeout if it gave way, with
    nothing logged if it still returned, with the exception logged if it
    raised one; a construction that never reacts keeps the task from
    ending. *)
Theorem prewarm_logs_and_contains_failures (w : World) (pid : string) :
  (forall t e, (prewarm_pipeline w pid).2 = Completes t (Raise e) ->
     is_Exception e = false)
  /\ (forall t b, pm_load_pipeline w pid None = Completes t (Ok b) -> t <= 300 ->
       prewarm_pipeline w pid = ([], Completes (t + 0) (Ok tt)))
  /\ (forall t e, pm_load_pipeline w pid None = Completes t (Raise e) -> t <= 300 ->
       is_Exception e = true ->
       prewarm_pipeline w pid
       = ([Log ERROR ("Error pre-warming pipeline " +:+ pid +:+ " in background: "
                      +:+ str e)],
          Completes (t + 0) (Ok tt)))
  /\ ((forall t r, pm_load_pipeline w pid None = Completes t r -> 300 < t) ->
      (forall dt msg,
         pm_load_cancelled w pid None
         = Completes dt (Raise (BaseException "CancelledError" msg)) ->
         prewarm_pipeline w pid
         = ([Log ERROR ("Error pre-warming pipeline " +:+ pid +:+ " in background: ")],
            Completes (300 + dt + 0) (Ok tt)))
      /\ (forall dt b, pm_load_cancelled w pid None = Completes dt (Ok b) ->
           prewarm_pipeline w pid = ([], Completes (300 + dt + 0) (Ok tt)))
      /\ (forall dt e, pm_load_cancelled w pid None = Completes dt (Raise e) ->
           is_CancelledError e = false -> is_Exception e = true ->
           prewarm_pipeline w pid
           = ([Log ERROR ("Error pre-warming pipeline " +:+ pid +:+ " in background: "
                          +:+ str e)],
              Completes (300 + dt + 0) (Ok tt)))
      /\ (pm_load_cancelled w pid None = Hangs -> (prewarm_pipeline w pid).2 = Hangs)).
Proof.
  split; [|split; [|split]].
  - intros t e. apply prewarm_swallows_exceptions.
  - intros t b Hl Ht.
    unfold prewarm_pipeline, co_try_except, co_bind, co_await, wait_for, co_log.
    rewrite Hl. by rewrite bool_decide_true.
  - intros t e Hl Ht He.
    unfold prewarm_pipeline, co_try_except, co_bind, co_await, wait_for, co_log.
    rewrite Hl. rewrite bool_decide_true by done. simpl. by rewrite He.
  - intros Hlate.
    assert (Hw : wait_for (pm_load_pipeline w pid None) (pm_load_cancelled w pid None) 300
                 = timed_out (pm_load_cancelled w pid None) 300).
    { unfold wait_for. destruct (pm_load_pipeline w pid None) as [t r|] eqn:Hl; [|done].
      specialize (Hlate _ _ eq_refl). rewrite bool_decide_false by lia. done. }
    unfold prewarm_pipeline. rewrite Hw.
    unfold co_try_except, co_bind, co_await, timed_out, co_log.
    split; [|split; [|split]].
    + intros dt msg ->. reflexivity.
    + intros dt b ->. reflexivity.
    + intros dt e -> Hc He. rewrite Hc. simpl. by rewrite He.
    + intros ->. reflexivity.
Qed.

Lemma prewarm_logs_and_contains_failures_witness :
  prewarm_pipeline stuck_world "longlive"
  = ([Log ERROR "Error pre-warming pipeline longlive in background: "],
     Completes 300 (Ok tt)).
Proof.
  destruct (prewarm_logs_and_contains_failures stuck_world "longlive")
    as (_ & _ & _ & Hlate).
  destruct Hlate as [Hgave _]; [intros t r H; discriminate H|].
  exact (Hgave 0 EmptyString eq_refl).
Defined.

(** ** The offer endpoint, loaded *)

(** X18: once the status is "loaded" and both managers are set, the offer
    handler hands the offer to [webrtc_manager.handle_offer] and answers
    with its answer; an HTTPException of that call, whatever its status,
    comes out as a 500. *)
Theorem offer_forwarded_when_loaded (w : World) (request : WebRTCOfferRequest)
    (s : State) (wm : WebRTCManager) (pm : PipelineManager) (d : dict) :
  webrtc_manager s = Some wm ->
  pipeline_manager s = Some pm ->
  pm_get_status_info_async w = Ok d ->
  d !! "status" = Some "loaded" ->
  (forall answer, wm_handle_offer w request = Ok answer ->
     (route_webrtc_offer w request s).1.1 = Ok answer
     /\ Called "webrtc_manager.handle_offer" ∈ (route_webrtc_offer w request s).2)
  /\ (forall c detail, wm_handle_offer w request = Raise (HTTPException c detail) ->
       (route_webrtc_offer w request s).1.1
       = Raise (HTTPException 500 (pretty c +:+ ": " +:+ detail))).
Proof.
  intros Hwm Hpm Hst Hd. split.
  - intros answer Hans. by apply (offer_loaded_run w request s wm pm d).
  - intros c detail Hans. destruct s as [wm0 pm0 rd rn]. simpl in Hwm, Hpm.
    subst wm0 pm0.
    unfold route_webrtc_offer, get_webrtc_manager, get_pipeline_manager,
      handle_webrtc_offer, bind, try_except, await, get, ret, lift. simpl.
    rewrite Hst. simpl. unfold subscript. rewrite Hd. simpl.
    rewrite Hans. reflexivity.
Qed.

Lemma offer_forwarded_when_loaded_witness :
  (route_webrtc_offer loaded_world demo_offer serving).1.1
  = Ok {| answer_sdp := "v=0"; answer_type := "answer" |}.
Proof.
  destruct (offer_forwarded_when_loaded loaded_world demo_offer serving
              WebRTCManager_instance PipelineManager_instance
              {[ "status" := "loaded" ]} eq_refl eq_refl eq_refl eq_refl)
    as [H _].
  exact (proj1 (H _ eq_refl)).
Defined.

(** ** The logger registry *)

Lemma getLogger_setLevel (n k : string) (l : Z) (m : Loggers) :
  getLogger n (setLevel k l m)
  = if decide (k = n)
    then {| level := l; filters := filters (getLogger k m);
            handlers := handlers (getLogger k m) |}
    else getLogger n m.
Proof.
  unfold setLevel. unfold getLogger at 1. rewrite lookup_insert.
  by case_decide.
Qed.

Lemma getLogger_addFilter (n k : string) (f : Filter) (m : Loggers) :
  getLogger n (addFilter k f m)
  = if decide (k = n)
    then {| level := level (getLogger k m); filters := filters (getLogger k m) ++ [f];
            handlers := handlers (getLogger k m) |}
    else getLogger n m.
Proof.
  unfold addFilter. unfold getLogger at 1. rewrite lookup_insert.
  by case_decide.
Qed.

Lemma getLogger_addHandler (n k : string) (h : Handler) (m : Loggers) :
  getLogger n (addHandler k h m)
  = if decide (k = n)
    then {| level := level (getLogger k m); filters := filters (getLogger k m);
            handlers := handlers (getLogger k m) ++ [h] |}
    else getLogger n m.
Proof.
  unfold addHandler. unfold getLogger at 1. rewrite lookup_insert.
  by case_decide.
Qed.

Lemma getLogger_console_to_INFO (n : string) (m : Loggers) :
  getLogger n (console_to_INFO m)
  = if decide ("root" = n)
    then {| level := level (getLogger "root" m);
            filters := filters (getLogger "root" m);
            handlers :=
              (fun h => if is_console h
                        then {| handler_class := handler_class h;
                                handler_level := INFO;
                                formatter := formatter h |}
                        else h) <$> handlers (getLogger "root" m) |}
    else getLogger n m.
Proof.
  unfold console_to_INFO. unfold getLogger at 1. rewrite lookup_insert.
  by case_decide.
Qed.

Lemma getLogger_basicConfig (n : string) (lvl : Z) (fmt : string) :
  getLogger n (basicConfig lvl fmt)
  = if decide ("root" = n)
    then {| level := lvl; filters := [];
            handlers := [ {| handler_class := StreamHandler;
                             handler_level := NOTSET;
                             formatter := Some fmt |} ] |}
    else {| level := NOTSET; filters := []; handlers := [] |}.
Proof.
  unfold basicConfig, getLogger. rewrite lookup_singleton.
  by case_decide.
Qed.

Ltac logger_step :=
  first [ rewrite getLogger_setLevel | rewrite getLogger_addFilter
        | rewrite getLogger_addHandler | rewrite getLogger_console_to_INFO
        | rewrite getLogger_basicConfig ];
  try (case_decide; subst); cbn [filters level handlers].

(** The filters and the level of any logger after the module's set-up. *)
Lemma configured_logger (w : World) (log_file : Path) (n : string) :
  filters (getLogger n (configure_logging w log_file))
  = (if decide (n = "asyncio") then [STUNErrorFilter] else [])
  /\ level (getLogger n (configure_logging w log_file))
     = if bool_decide (n ∈ ["scope.server"; "scope.core"; "uvicorn.error"]) then INFO
       else if decide (n = "root") then WARNING
       else if bool_decide (n ∈ ["uvicorn.access"; "fastapi"; "aiortc"])
               && truthy (getenv w "VERBOSE_LOGGING")
       then INFO
       else NOTSET.
Proof.
  unfold configure_logging.
  destruct (truthy (getenv w "VERBOSE_LOGGING")); repeat logger_step.
  all: split; [by case_decide|].
  all: repeat case_bool_decide; repeat case_decide; subst; cbn; try done.
  all: exfalso.
  all: try match goal with
           | H : _ ∉ _ |- _ => by (apply H; trace_find)
           end.
  all: match goal with
       | H : _ ∈ _ |- _ => trace_cases H; subst; congruence
       end.
Qed.

(** X19: the module filters no logger but "asyncio": a record is dropped
    by a logger's filters exactly when the logger is "asyncio" and the
    message contains the marked text; every other logger, the application's
    own included, lets every record through its filters. *)
Theorem only_asyncio_is_filtered (w : World) (log_file : Path) (n : string)
    (record : LogRecord) :
  Logger_filter (getLogger n (configure_logging w log_file)) record = false
  <-> n = "asyncio" /\ contains needle (getMessage record) = true.
Proof.
  unfold Logger_filter.
  rewrite (proj1 (configured_logger w log_file n)).
  case_decide as Hn; cbn.
  - unfold STUNErrorFilter_filter. fold needle.
    destruct (contains needle (getMessage record)); cbn; split; try done.
    intros [_ H]. discriminate H.
  - split; [discriminate|]. by intros [? _].
Qed.


(** ** The LoRA listing *)

Lemma compare_refl (a : string) : String.compare a a = Eq.
Proof. by apply OrderedTypeEx.String_as_OT.cmp_eq. Qed.

Lemma compare_lt_trans (a b c : string) :
  String.compare a b = Lt -> String.compare b c = Lt -> String.compare a c = Lt.
Proof.
  intros H1 H2. apply OrderedTypeEx.String_as_OT.cmp_lt.
  apply OrderedTypeEx.String_as_OT.cmp_lt in H1, H2.
  by eapply OrderedTypeEx.String_as_OT.lt_trans.
Qed.

Lemma compare_gt_lt (a b : string) :
  String.compare a b = Gt -> String.compare b a = Lt.
Proof. intros H. rewrite String.compare_antisym, H. done. Qed.

Lemma leb_trans (a b c : string) :
  String.leb a b = true -> String.leb b c = true -> String.leb a c = true.
Proof.
  unfold String.leb.
  destruct (String.compare a b) eqn:Hab; [|intros _|discriminate].
  - apply String.compare_eq_iff in Hab as ->. done.
  - destruct (String.compare b c) eqn:Hbc; [|intros _|discriminate].
    + apply String.compare_eq_iff in Hbc as <-. by rewrite Hab.
    + by rewrite (compare_lt_trans a b c).
Qed.

Lemma key_le_total (a b : string * string) : key_le a b = true \/ key_le b a = true.
Proof.
  unfold key_le. destruct (String.compare a.1 b.1) eqn:H.
  - apply String.compare_eq_iff in H. rewrite H, compare_refl.
    apply String.leb_total.
  - by left.
  - right. by rewrite (compare_gt_lt _ _ H).
Qed.

Lemma key_le_trans (a b c : string * string) :
  key_le a b = true -> key_le b c = true -> key_le a c = true.
Proof.
  unfold key_le.
  destruct (String.compare a.1 b.1) eqn:Hab; [| |discriminate].
  - apply String.compare_eq_iff in Hab. rewrite Hab.
    destruct (String.compare b.1 c.1); [|done|discriminate].
    apply leb_trans.
  - intros _. destruct (String.compare b.1 c.1) eqn:Hbc; [| |discriminate].
    + apply String.compare_eq_iff in Hbc. rewrite <- Hbc, Hab. done.
    + by rewrite (compare_lt_trans _ _ _ Hab Hbc).
Qed.

Lemma key_le_refl (a : string * string) : key_le a a = true.
Proof. by destruct (key_le_total a a). Qed.

Lemma sort_insert_perm (x : LoRAFileInfo) (l : list LoRAFileInfo) :
  sort_insert x l ≡ₚ x :: l.
Proof.
  induction l as [|y l IH]; simpl; [done|].
  destruct (key_le (sort_key x) (sort_key y)); [done|].
  rewrite IH. apply Permutation_swap.
Qed.

Lemma sort_by_key_perm (l : list LoRAFileInfo) : sort_by_key l ≡ₚ l.
Proof.
  induction l as [|x l IH]; simpl; [done|].
  by rewrite sort_insert_perm, IH.
Qed.

Lemma sort_insert_sorted (x : LoRAFileInfo) (l : list LoRAFileInfo) :
  StronglySorted listed_before l -> StronglySorted listed_before (sort_insert x l).
Proof.
  induction l as [|y l IH]; intros Hs; simpl.
  - repeat constructor.
  - apply StronglySorted_inv in Hs as [Hl Hy].
    destruct (key_le (sort_key x) (sort_key y)) eqn:Hxy.
    + constructor; [by constructor|]. constructor; [exact Hxy|].
      eapply Forall_impl; [exact Hy|]. intros z Hz. unfold listed_before in *.
      by eapply key_le_trans.
    + constructor; [by apply IH|].
      rewrite sort_insert_perm. constructor; [|exact Hy].
      unfold listed_before. destruct (key_le_total (sort_key x) (sort_key y)); congruence.
Qed.

Lemma sort_by_key_sorted (l : list LoRAFileInfo) :
  StronglySorted listed_before (sort_by_key l).
Proof.
  induction l as [|x l IH]; simpl; [constructor|]. by apply sort_insert_sorted.
Qed.

Lemma sort_insert_filter (k : string * string) (x : LoRAFileInfo)
    (l : list LoRAFileInfo) :
  filter (fun y => sort_key y = k) (sort_insert x l)
  = filter (fun y => sort_key y = k) (x :: l).
Proof.
  induction l as [|y l IH]; simpl; [done|].
  destruct (key_le (sort_key x) (sort_key y)) eqn:Hxy; [done|].
  rewrite filter_cons, IH, !filter_cons.
  destruct (decide (sort_key y = k)) as [Hy|Hy];
    destruct (decide (sort_key x = k)) as [Hx|Hx]; try done.
  rewrite Hx, Hy, key_le_refl in Hxy. discriminate.
Qed.

(** X21: sorting the listing is stable: the entries that share a folder and
    a name come out in the order in which they were found, so that of
    ink.safetensors, ink.bin and ink.pt in one folder the .safetensors
    entry comes first and the .pt entry last. *)
Theorem lora_sort_is_stable (k : string * string) (l : list LoRAFileInfo) :
  filter (fun y => sort_key y = k) (sort_by_key l)
  = filter (fun y => sort_key y = k) l.
Proof.
  induction l as [|x l IH]; simpl; [done|].
  by rewrite sort_insert_filter, !filter_cons, IH.
Qed.

(** X22: [round_size_mb] is the nearest hundredth of a MiB: it differs from
    the size by at most half a hundredth, and it is exactly the size when
    the size is a whole number of hundredths. *)
Theorem size_mb_is_nearest_hundredth (st_size : Z) :
  Z.abs (round_size_mb st_size * 1048576 - st_size * 100) <= 524288
  /\ forall k, st_size * 100 = k * 1048576 -> round_size_mb st_size = k.
Proof.
  unfold round_size_mb.
  pose proof (Z.div_mod (st_size * 100) 1048576 ltac:(lia)) as Hdm.
  pose proof (Z.mod_pos_bound (st_size * 100) 1048576 ltac:(lia)) as Hb.
  set (q := st_size * 100 / 1048576) in *.
  set (r := (st_size * 100) mod 1048576) in *.
  split.
  - destruct (r <? 524288) eqn:H1; [apply Z.ltb_lt in H1; lia|].
    apply Z.ltb_ge in H1.
    destruct (524288 <? r) eqn:H2; [apply Z.ltb_lt in H2; lia|].
    apply Z.ltb_ge in H2. destruct (Z.even q); lia.
  - intros k Hk. assert (r = 0 /\ q = k) as [Hr ->] by lia.
    rewrite Hr. reflexivity.
Qed.

Lemma process_lora_file_run (d : Disk) (file_path lora_dir : Path) (s : State) :
  exists r,
    process_lora_file d file_path lora_dir s = (r, s, [])
    /\ forall info, r = Ok info ->
         lora_path info = path_str file_path /\ lora_name info = stem file_path.
Proof.
  unfold process_lora_file, bind, lift, ret.
  destruct (st_size d file_path) as [n|e]; [|by eexists].
  destruct (relative_to file_path lora_dir) as [rel|e]; [|by eexists].
  eexists. split; [reflexivity|]. by intros info [= <-].
Qed.

Lemma collect_files_run (d : Disk) (lora_dir : Path) (files : list Path)
    (acc : list LoRAFileInfo) (s : State) :
  exists r,
    collect_files d lora_dir files acc s = (r, s, [])
    /\ forall out, r = Ok out ->
         lora_path <$> out
         = (lora_path <$> acc)
           ++ (path_str <$> filter (fun p => disk_is_file d p = true) files).
Proof.
  revert acc. induction files as [|f files IH]; intros acc; simpl.
  - eexists. split; [reflexivity|]. intros out [= <-]. by rewrite app_nil_r.
  - rewrite filter_cons. destruct (disk_is_file d f) eqn:Hf.
    + unfold bind.
      destruct (process_lora_file_run d f lora_dir s) as (r & -> & Hr).
      destruct r as [info|e]; [|by eexists].
      destruct (IH (acc ++ [info])) as (r' & -> & Hr').
      exists r'. split; [done|]. intros out ->.
      rewrite (Hr' out eq_refl), fmap_app. cbn.
      rewrite (proj1 (Hr info eq_refl)), <- app_assoc.
      by destruct (decide (true = true)).
    + destruct (IH acc) as (r' & -> & Hr').
      exists r'. split; [done|]. intros out ->.
      rewrite (Hr' out eq_refl). by destruct (decide (false = true)).
Qed.

Lemma collect_patterns_run (d : Disk) (lora_dir : Path) (patterns : list string)
    (acc : list LoRAFileInfo) (s : State) :
  exists r,
    collect_patterns d lora_dir patterns acc s = (r, s, [])
    /\ forall out, r = Ok out ->
         lora_path <$> out
         = (lora_path <$> acc)
           ++ (path_str <$> filter (fun p => disk_is_file d p = true)
                              (mjoin (rglob d lora_dir <$> patterns))).
Proof.
  revert acc. induction patterns as [|pat patterns IH]; intros acc; simpl.
  - eexists. split; [reflexivity|]. intros out [= <-]. by rewrite app_nil_r.
  - unfold bind.
    destruct (collect_files_run d lora_dir (rglob d lora_dir pat) acc s)
      as (r & -> & Hr).
    destruct r as [found|e]; [|by eexists].
    destruct (IH found) as (r' & -> & Hr').
    exists r'. split; [done|]. intros out ->.
    rewrite (Hr' out eq_refl), (Hr found eq_refl), filter_app, fmap_app.
    by rewrite <- app_assoc.
Qed.

(** What [list_lora_files] returns, when it returns: the sorted collection. *)
Lemma list_lora_files_ok (d : Disk) (s : State) (files : list LoRAFileInfo) :
  (list_lora_files d s).1.1 = Ok files ->
  exists md found,
    get_models_dir d = Ok md
    /\ files = sort_by_key found
    /\ lora_path <$> found
       = path_str <$>
           (if disk_exists d (md ++ ["lora"]) && disk_is_dir d (md ++ ["lora"])
            then filter (fun p => disk_is_file d p = true)
                   (mjoin (rglob d (md ++ ["lora"]) <$> lora_patterns))
            else []).
Proof.
  unfold list_lora_files, try_except, bind, call, emit, ret, raise.
  destruct (get_models_dir d) as [md|e]; cbn -[collect_patterns lora_patterns andb].
  - destruct (disk_exists d (md ++ ["lora"]) && disk_is_dir d (md ++ ["lora"]))
      eqn:Hdir.
    + destruct (collect_patterns_run d (md ++ ["lora"]) lora_patterns [] s)
        as (r & -> & Hr).
      destruct r as [found|e]; cbn.
      * intros [= <-]. exists md, found. split; [done|]. split; [done|].
        rewrite Hdir. exact (Hr found eq_refl).
      * destruct (is_Exception e); cbn; discriminate.
    + cbn. intros [= <-]. exists md, []. by rewrite Hdir.
  - destruct (is_Exception e); cbn; discriminate.
Qed.

(** X23: a listing that [list_lora_files] returns is sorted by folder and
    then name, a file outside any folder counting as folder "": every entry
    may stand before all the entries after it. *)
Theorem lora_listing_is_sorted (d : Disk) (s : State) (files : list LoRAFileInfo) :
  (list_lora_files d s).1.1 = Ok files ->
  StronglySorted listed_before files.
Proof.
  intros H. apply list_lora_files_ok in H as (md & found & _ & -> & _).
  apply sort_by_key_sorted.
Qed.

Lemma lora_listing_is_sorted_witness :
  StronglySorted listed_before
    [ {| lora_name := "style"; lora_path := "models/lora/style.safetensors";
         size_mb := 12; folder := None |};
      {| lora_name := "ink"; lora_path := "models/lora/anime/ink.bin";
         size_mb := 14305; folder := Some "anime" |};
      {| lora_name := "ink"; lora_path := "models/lora/anime/ink.pt";
         size_mb := 14305; folder := Some "anime" |} ].
Proof.
  apply (lora_listing_is_sorted demo_disk serving). reflexivity.
Defined.

(** X24: a listing that [list_lora_files] returns holds exactly the regular
    files that the three patterns find under models/lora, one entry for
    each find, directories and other non-files left out; without a
    models/lora directory it is empty. *)
Theorem lora_listing_is_the_files_found (d : Disk) (s : State)
    (files : list LoRAFileInfo) (md : Path) :
  get_models_dir d = Ok md ->
  (list_lora_files d s).1.1 = Ok files ->
  let lora_dir := md ++ ["lora"] in
  lora_path <$> files
  ≡ₚ path_str <$>
       (if disk_exists d lora_dir && disk_is_dir d lora_dir
        then filter (fun p => disk_is_file d p = true)
               (rglob d lora_dir "*.safetensors" ++ rglob d lora_dir "*.bin"
                ++ rglob d lora_dir "*.pt")
        else []).
Proof.
  intros Hmd H lora_dir.
  apply list_lora_files_ok in H as (md' & found & Hmd' & -> & Hfound).
  rewrite Hmd in Hmd'. injection Hmd' as <-.
  rewrite sort_by_key_perm, Hfound. fold lora_dir.
  destruct (disk_exists d lora_dir && disk_is_dir d lora_dir); [|done].
  cbn. by rewrite app_nil_r.
Qed.

Lemma lora_listing_is_the_files_found_witness :
  [ "models/lora/style.safetensors"; "models/lora/anime/ink.bin";
    "models/lora/anime/ink.pt" ]
  ≡ₚ [ "models/lora/style.safetensors"; "models/lora/anime/ink.bin";
       "models/lora/anime/ink.pt" ].
Proof.
  exact (lora_listing_is_the_files_found demo_disk serving _ ["models"]
           eq_refl eq_refl).
Defined.

Lemma rfind_dot_ext (b ext : string) :
  rfind_dot ext = None ->
  rfind_dot (b +:+ "." +:+ ext) = Some (String.length b).
Proof.
  intros Hext. induction b as [|c b IH].
  - change (EmptyString +:+ "." +:+ ext) with (String "." ext).
    cbn [rfind_dot]. by rewrite Hext.
  - change (String c b +:+ "." +:+ ext) with (String c (b +:+ "." +:+ ext)).
    cbn [rfind_dot]. by rewrite IH.
Qed.

Lemma str_take_app (b x : string) : str_take (String.length b) (b +:+ x) = b.
Proof.
  induction b as [|c b IH]; [by destruct x|].
  change (String c b +:+ x) with (String c (b +:+ x)). cbn. by rewrite IH.
Qed.

Lemma length_app_dot (b ext : string) :
  String.length (b +:+ "." +:+ ext) = (String.length b + S (String.length ext))%nat.
Proof.
  induction b as [|c b IH]; [done|].
  change (String c b +:+ "." +:+ ext) with (String c (b +:+ "." +:+ ext)).
  cbn. by rewrite IH.
Qed.

Lemma stem_drops_extension (dir : Path) (b ext : string) :
  b <> EmptyString -> ext <> EmptyString -> rfind_dot ext = None ->
  stem (dir ++ [b +:+ "." +:+ ext]) = b.
Proof.
  intros Hb He Hext. unfold stem, path_name. rewrite last_snoc. cbn [default].
  cbv zeta. unfold id.
  rewrite (rfind_dot_ext _ _ Hext), length_app_dot.
  destruct b as [|c b]; [done|]. destruct ext as [|c' ext]; [done|].
  assert (H1 : (0 <? String.length (String c b))%nat = true) by (apply Nat.ltb_lt; cbn; lia).
  assert (H2 : (String.length (String c b)
                <? String.length (String c b) + S (String.length (String c' ext)) - 1)%nat
               = true) by (apply Nat.ltb_lt; cbn; lia).
  rewrite H1, H2. cbn [andb]. apply str_take_app.
Qed.

Lemma relative_to_app (base rel : Path) : relative_to (base ++ rel) base = Ok rel.
Proof.
  unfold relative_to. rewrite take_app_length, drop_app_length.
  by rewrite bool_decide_true.
Qed.

(** X25: the entry of a file [b.ext] found under models/lora carries the
    name [b], without the extension, the rounded size, and as folder the
    path of its directory below models/lora, or no folder at all when the
    file lies in models/lora itself. *)
Theorem lora_entry_name_and_folder (d : Disk) (s : State) (lora_dir sub : Path)
    (b ext : string) (n : Z) :
  let file_path := lora_dir ++ sub ++ [b +:+ "." +:+ ext] in
  st_size d file_path = Ok n ->
  b <> EmptyString -> ext <> EmptyString -> rfind_dot ext = None ->
  (process_lora_file d file_path lora_dir s).1.1
  = Ok {| lora_name := b;
          lora_path := path_str file_path;
          size_mb := round_size_mb n;
          folder := match sub with
                    | [] => None
                    | _ => Some (path_str sub)
                    end |}.
Proof.
  intros file_path Hsize Hb He Hext.
  unfold process_lora_file, bind, lift, ret. rewrite Hsize.
  unfold file_path at 1. rewrite relative_to_app. cbn [fst snd].
  unfold parent. rewrite removelast_last.
  unfold file_path at 1. rewrite app_assoc.
  rewrite (stem_drops_extension _ _ _ Hb He Hext).
  f_equal. f_equal. destruct sub; by case_bool_decide.
Qed.

Lemma lora_entry_name_and_folder_witness :
  (process_lora_file demo_disk ["models"; "lora"; "anime"; "ink.pt"]
     ["models"; "lora"] serving).1.1
  = Ok {| lora_name := "ink"; lora_path := "models/lora/anime/ink.pt";
          size_mb := 14305; folder := Some "anime" |}.
Proof.
  apply (lora_entry_name_and_folder demo_disk serving ["models"; "lora"] ["anime"]
           "ink" "pt" 150000000); try reflexivity; discriminate.
Defined.

(** ** Where the shutdown and log claims stop *)

(** C8 as stated fails: at a shutdown with both managers set and a session
    manager whose stop raises, stop is called, the shutdown ends with its
    exception, and the pipeline manager's unload is not called. *)
Lemma shutdown_unload_skipped_when_stop_raises :
  is_Some (webrtc_manager serving)
  /\ is_Some (pipeline_manager serving)
  /\ lifespan_shutdown stop_fails_world serving
     = (Raise (Exception "RuntimeError" "event loop is closed"),
        serving,
        [ Log INFO "Shutting down WebRTC manager...";
          Called "webrtc_manager.stop";
          Raised "webrtc_manager.stop" (Exception "RuntimeError" "event loop is closed") ])
  /\ Called "pipeline_manager.unload_pipeline"
     ∉ (lifespan_shutdown stop_fails_world serving).2.
Proof.
  split; [by eexists|]. split; [by eexists|].
  assert (Hrun : lifespan_shutdown stop_fails_world serving
     = (Raise (Exception "RuntimeError" "event loop is closed"),
        serving,
        [ Log INFO "Shutting down WebRTC manager...";
          Called "webrtc_manager.stop";
          Raised "webrtc_manager.stop" (Exception "RuntimeError" "event loop is closed") ]))
    by reflexivity.
  split; [exact Hrun|]. rewrite Hrun. cbn [snd]. intros H. trace_cases H.
Qed.

(** C10 as stated fails: a log file that exists and is not valid UTF-8 is
    not returned; the request is answered with a 500. *)
Lemma existing_log_answered_with_500 :
  get_most_recent_log_file unreadable_world = Ok (Some ["logs"; "scope-logs-1.log"])
  /\ path_exists unreadable_world ["logs"; "scope-logs-1.log"] = true
  /\ (get_current_logs unreadable_world serving).1.1
     = Raise (HTTPException 500 "invalid start byte")
  /\ http_status (get_current_logs unreadable_world serving).1.1 = 500.
Proof. repeat split. Qed.
